(** * Reviews journal (src/app/page.tsx): projector, edit state, composer

    A shallow embedding of the two page layouts of the reviews application:
    the minimal reader/writer ([Minimal]: App, ReadView, ReviewEntry,
    WriteView) and the dashboard ([Dashboard]: App, AddReviewCard,
    ReviewItem).  React state cells become record fields, event handlers
    become functions from the state to the next state together with the
    list of transactions handed to [db.transact]. *)

From Stdlib Require Import Ascii String NArith ZArith.
From stdpp Require Import gmap list.

Local Open Scope list_scope.

(** ** JavaScript values used by the page *)

Module Js.

(** A JavaScript string is a sequence of UTF-16 code units. *)
Definition jsstring : Type := list N.

(** Literals of the page are ASCII: one code unit per character. *)
Definition js (s : string) : jsstring :=
  (fun a : ascii => N_of_ascii a) <$> list_ascii_of_string s.

(** ECMAScript WhiteSpace and LineTerminator code points, the ones
    [String.prototype.trim] strips. All lie in the basic plane. *)
Definition is_white_space (c : N) : bool :=
  (  (c =? 9) || (c =? 10) || (c =? 11) || (c =? 12) || (c =? 13)
  || (c =? 32) || (c =? 160) || (c =? 5760)
  || ((8192 <=? c) && (c <=? 8202))
  || (c =? 8232) || (c =? 8233) || (c =? 8239) || (c =? 8287)
  || (c =? 12288) || (c =? 65279))%N.

Fixpoint trimStart (s : jsstring) : jsstring :=
  match s with
  | c :: s' => if is_white_space c then trimStart s' else s
  | [] => []
  end.

Definition trimEnd (s : jsstring) : jsstring :=
  reverse (trimStart (reverse s)).

Definition trim (s : jsstring) : jsstring := trimEnd (trimStart s).

(** [!s] on a string: only the empty string is falsy. *)
Definition not_string (s : jsstring) : bool :=
  match s with [] => true | _ :: _ => false end.

(** Outcome of evaluating code that may raise. *)
Inductive Error : Type := TypeError.

Inductive Completion (A : Type) : Type :=
| Normal (a : A)
| Throw (e : Error).
Arguments Normal {A} a.
Arguments Throw {A} e.

Definition bind {A B} (c : Completion A) (k : A -> Completion B)
  : Completion B :=
  match c with
  | Normal a => k a
  | Throw e => Throw e
  end.

(** [Array.prototype.reduce] with an initial value, left to right; an
    exception raised by the callback aborts the fold. *)
Fixpoint reduce {A B} (f : B -> A -> Completion B) (l : list A) (init : B)
  : Completion B :=
  match l with
  | [] => Normal init
  | x :: l' => bind (f init x) (reduce f l')
  end.

(** [Array.prototype.map] whose callback may raise. *)
Fixpoint map_array {A B} (f : A -> Completion B) (l : list A)
  : Completion (list B) :=
  match l with
  | [] => Normal []
  | x :: l' =>
      bind (f x) (fun y => bind (map_array f l') (fun ys => Normal (y :: ys)))
  end.

(** The properties every object literal inherits from [Object.prototype],
    with the value of their own [length] property: the arity of the
    function, and nothing for the [__proto__] accessor, which yields the
    prototype object itself. None of these values has a [push] or a [map]
    method, and all of them are truthy. *)
Definition object_prototype : list (jsstring * option N) :=
  [ (js "constructor", Some 1%N);
    (js "__defineGetter__", Some 2%N);
    (js "__defineSetter__", Some 2%N);
    (js "hasOwnProperty", Some 1%N);
    (js "__lookupGetter__", Some 1%N);
    (js "__lookupSetter__", Some 1%N);
    (js "isPrototypeOf", Some 1%N);
    (js "propertyIsEnumerable", Some 1%N);
    (js "toString", Some 0%N);
    (js "valueOf", Some 0%N);
    (js "__proto__", None);
    (js "toLocaleString", Some 0%N) ].

Fixpoint assoc {V} (k : jsstring) (tbl : list (jsstring * V)) : option V :=
  match tbl with
  | [] => None
  | (k', v) :: tbl' => if decide (k' = k) then Some v else assoc k tbl'
  end.

Definition inherited (k : jsstring) : option (option N) :=
  assoc k object_prototype.

(** [Array.prototype.find]: the first element the callback accepts, and
    [undefined] (here [None]) when there is none. *)
Fixpoint find {A} (p : A -> bool) (l : list A) : option A :=
  match l with
  | [] => None
  | x :: l' => if p x then Some x else find p l'
  end.

End Js.
Export Js.

(** ** Data model *)

(** [type Review = InstaQLEntity<AppSchema, "reviews">]: the entity as the
    query hands it to the page. [section] is a plain string at run time;
    the page only casts it to [SectionId]. *)
Module Review.
Record t : Type := mk
  { id : jsstring;
    title : jsstring;
    content : jsstring;
    section : jsstring;
    createdAt : Z }.

#[export] Instance eq_dec : EqDecision t.
Proof. solve_decision. Defined.
End Review.

(** [type SectionId]: the three keys of [SECTIONS], the same in both
    layouts. *)
Inductive SectionId : Type := GrowingInstant | PlanningWedding | BestShape.

#[export] Instance SectionId_eq_dec : EqDecision SectionId.
Proof. solve_decision. Defined.

Definition section_key (s : SectionId) : jsstring :=
  match s with
  | GrowingInstant => js "growing-instant"
  | PlanningWedding => js "planning-wedding"
  | BestShape => js "best-shape"
  end.

(** ** Transactions handed to [db.transact] *)

Module Tx.

(** The object literal passed to [update]: the attributes it names. *)
Record Attrs : Type := mkAttrs
  { title : option jsstring;
    content : option jsstring;
    section : option jsstring;
    createdAt : option Z }.

(** [db.tx.reviews[eid].update(attrs)] and [db.tx.reviews[eid].delete()]. *)
Inductive Op : Type :=
| update (eid : jsstring) (attrs : Attrs)
| delete (eid : jsstring).

Definition no_attrs : Attrs := mkAttrs None None None None.

(** Attributes of [old] overwritten by the ones [new] names. *)
Definition merge (new old : Attrs) : Attrs :=
  {| title := from_option Some (title old) (title new);
     content := from_option Some (content old) (content new);
     section := from_option Some (section old) (section new);
     createdAt := from_option Some (createdAt old) (createdAt new) |}.

(** Modelled from the spec: the external Entity Store behind [@/lib/db],
    whose [write(operations)] "accepts create/update/delete operations
    against individual review records by id". An update sets the named
    attributes of the record with that id (creating the record when there
    is none) and leaves every other attribute and record alone; a delete
    removes the record. *)
Definition transact (op : Op) (store : gmap jsstring Attrs)
  : gmap jsstring Attrs :=
  match op with
  | update eid attrs =>
      <[eid := merge attrs (default no_attrs (store !! eid))]> store
  | delete eid => base.delete eid store
  end.

Definition of_review (r : Review.t) : Attrs :=
  {| title := Some (Review.title r);
     content := Some (Review.content r);
     section := Some (Review.section r);
     createdAt := Some (Review.createdAt r) |}.

End Tx.

(** ** The minimal layout: App, ReadView, ReviewEntry, WriteView *)

Module Minimal.

(** [const SECTIONS = { ... } as const]: keys in insertion order with
    their labels (the emoji of each entry plays no part here). *)
Definition SECTIONS : list (SectionId * string) :=
  [ (GrowingInstant, "Growing Instant"%string);
    (PlanningWedding, "Planning My Wedding"%string);
    (BestShape, "Getting Into the Best Shape of My Life"%string) ].

(** [Object.keys(SECTIONS) as SectionId[]] *)
Definition Object_keys (tbl : list (SectionId * string)) : list SectionId :=
  fst <$> tbl.

Module App.
Inductive View : Type := read | write.

(** [useState<"read" | "write">("read")], [useState<string | null>(null)] *)
Record State : Type := mk
  { view : View;
    editingId : option jsstring }.

Definition initial : State := {| view := read; editingId := None |}.

Definition setView (v : View) (st : State) : State :=
  {| view := v; editingId := editingId st |}.

Definition setEditingId (i : option jsstring) (st : State) : State :=
  {| view := view st; editingId := i |}.
End App.

Module ReadView.

(** What reading [acc[k]] yields on an object created by [{}] whose own
    properties are arrays of reviews: the own property, else the one
    found on [Object.prototype], else [undefined]. *)
Inductive Property : Type :=
| Own (l : list Review.t)
| Inherited (len : option N)
| Undefined.

Definition get (acc : gmap jsstring (list Review.t)) (k : jsstring)
  : Property :=
  match acc !! k with
  | Some l => Own l
  | None =>
      match inherited k with
      | Some len => Inherited len
      | None => Undefined
      end
  end.

(** [!acc[k]]: arrays (also empty ones), functions and objects are
    truthy. *)
Definition not_property (p : Property) : bool :=
  match p with
  | Undefined => true
  | Own _ | Inherited _ => false
  end.

(** The callback of [reviews.reduce]:
    [if (!acc[section]) acc[section] = []; acc[section].push(review)]. *)
Definition reducer (acc : gmap jsstring (list Review.t)) (review : Review.t)
  : Completion (gmap jsstring (list Review.t)) :=
  let section := Review.section review in
  let acc :=
    if not_property (get acc section) then <[section := []]> acc else acc in
  match get acc section with
  | Own l => Normal (<[section := l ++ [review]]> acc)
  | Inherited _ | Undefined => Throw TypeError
  end.

Definition groupedBySection (reviews : list Review.t)
  : Completion (gmap jsstring (list Review.t)) :=
  reduce reducer reviews ∅.

(** Props of one [<ReviewEntry>] element. *)
Record EntryProps : Type := mkEntry
  { review : Review.t;
    isEditing : bool }.

(** One [<section key={sectionId}>] element. *)
Record Group : Type := mkGroup
  { key : SectionId;
    heading : string;
    entries : list EntryProps }.

Inductive Output : Type :=
| NoReviewsYet
| Main (children : list (option Group)).

Definition entry (editingId : option jsstring) (r : Review.t) : EntryProps :=
  {| review := r;
     isEditing := bool_decide (editingId = Some (Review.id r)) |}.

(** The callback of [Object.keys(SECTIONS).map]:
    [if (!sectionReviews?.length) return null], else the section with
    one entry per element of [sectionReviews.map]. *)
Definition render_section (groupedBySection : gmap jsstring (list Review.t))
    (editingId : option jsstring) (s : SectionId * string)
  : Completion (option Group) :=
  match get groupedBySection (section_key s.1) with
  | Undefined => Normal None
  | Own sectionReviews =>
      if (length sectionReviews =? 0)%nat then Normal None
      else Normal (Some {| key := s.1; heading := s.2;
                           entries := entry editingId <$> sectionReviews |})
  | Inherited None | Inherited (Some 0%N) => Normal None
  | Inherited (Some (N.pos _)) => Throw TypeError
  end.

Definition ReadView (reviews : list Review.t) (editingId : option jsstring)
  : Completion Output :=
  if (length reviews =? 0)%nat then Normal NoReviewsYet
  else
    bind (groupedBySection reviews) (fun grouped =>
    bind (map_array (render_section grouped editingId) SECTIONS)
         (fun children => Normal (Main children))).

(** React renders nothing for a [null] child. *)
Definition rendered (o : Output) : list Group :=
  match o with
  | NoReviewsYet => []
  | Main children => omap (fun c => c) children
  end.

(** [onEdit={() => setEditingId(review.id)}] and
    [onClose={() => setEditingId(null)}] *)
Definition onEdit (r : Review.t) (app : App.State) : App.State :=
  App.setEditingId (Some (Review.id r)) app.

Definition onClose (app : App.State) : App.State :=
  App.setEditingId None app.

End ReadView.

(** One mounted [<ReviewEntry>]. Its two state cells are initialised from
    the review when the element mounts and live as long as it stays
    mounted: ReadView renders the element at the same place with the same
    key whether or not it is being edited. *)
Module ReviewEntry.

(** [useState(review.title)], [useState(review.content)] *)
Record State : Type := mk
  { editTitle : jsstring;
    editContent : jsstring }.

Definition mount (review : Review.t) : State :=
  {| editTitle := Review.title review;
     editContent := Review.content review |}.

Definition setEditTitle (v : jsstring) (st : State) : State :=
  {| editTitle := v; editContent := editContent st |}.

Definition setEditContent (v : jsstring) (st : State) : State :=
  {| editTitle := editTitle st; editContent := v |}.

Definition handleSave (review : Review.t) (st : State) (app : App.State)
  : State * App.State * list Tx.Op :=
  if not_string (trim (editTitle st)) || not_string (trim (editContent st))
  then (st, app, [])
  else (st, ReadView.onClose app,
        [ Tx.update (Review.id review)
            {| Tx.title := Some (trim (editTitle st));
               Tx.content := Some (trim (editContent st));
               Tx.section := None;
               Tx.createdAt := None |} ]).

Definition handleDelete (review : Review.t) (st : State) (app : App.State)
  : State * App.State * list Tx.Op :=
  (st, ReadView.onClose app, [ Tx.delete (Review.id review) ]).

(** What the element shows: the form with its two inputs and the Save,
    Cancel and Delete buttons, or the clickable article. *)
Inductive Output : Type :=
| Form (titleInput contentInput : jsstring)
| Article (time : Z) (h3 p : jsstring).

Definition render (review : Review.t) (isEditing : bool) (st : State)
  : Output :=
  if isEditing then Form (editTitle st) (editContent st)
  else Article (Review.createdAt review) (Review.title review)
               (Review.content review).

(** The events the rendered element reacts to. *)
Inductive Event : Type :=
| ChangeTitle (v : jsstring)
| ChangeContent (v : jsstring)
| ClickSave
| ClickCancel
| ClickDelete
| ClickArticle.

Definition offered (isEditing : bool) (e : Event) : bool :=
  match e with
  | ClickArticle => negb isEditing
  | ChangeTitle _ | ChangeContent _ | ClickSave | ClickCancel
  | ClickDelete => isEditing
  end.

Definition dispatch (review : Review.t) (e : Event)
    (st : State) (app : App.State) : State * App.State * list Tx.Op :=
  let isEditing := bool_decide (App.editingId app = Some (Review.id review)) in
  if offered isEditing e then
    match e with
    | ChangeTitle v => (setEditTitle v st, app, [])
    | ChangeContent v => (setEditContent v st, app, [])
    | ClickSave => handleSave review st app
    | ClickCancel => (st, ReadView.onClose app, [])
    | ClickDelete => handleDelete review st app
    | ClickArticle => (st, ReadView.onEdit review app, [])
    end
  else (st, app, []).

End ReviewEntry.

Module WriteView.

(** [useState<"section" | "content">("section")] *)
Inductive Step : Type := section_step | content_step.

Record State : Type := mk
  { step : Step;
    selectedSection : option SectionId;
    title : jsstring;
    content : jsstring }.

Definition initial : State :=
  {| step := section_step; selectedSection := None;
     title := []; content := [] |}.

Definition setStep (v : Step) (st : State) : State :=
  {| step := v; selectedSection := selectedSection st;
     title := title st; content := content st |}.

Definition setSelectedSection (v : option SectionId) (st : State) : State :=
  {| step := step st; selectedSection := v;
     title := title st; content := content st |}.

Definition setTitle (v : jsstring) (st : State) : State :=
  {| step := step st; selectedSection := selectedSection st;
     title := v; content := content st |}.

Definition setContent (v : jsstring) (st : State) : State :=
  {| step := step st; selectedSection := selectedSection st;
     title := title st; content := v |}.

(** [!selectedSection] on a [SectionId | null]. *)
Definition not_section (s : option SectionId) : bool :=
  match s with
  | None => true
  | Some k => not_string (section_key k)
  end.

(** [newId] is the value of [id()] and [now] that of [Date.now()];
    [onComplete] is App's [() => setView("read")]. *)
Definition handleSubmit (newId : jsstring) (now : Z)
    (st : State) (app : App.State) : State * App.State * list Tx.Op :=
  if not_section (selectedSection st)
     || not_string (trim (title st)) || not_string (trim (content st))
  then (st, app, [])
  else
    (setStep section_step
       (setSelectedSection None (setContent [] (setTitle [] st))),
     App.setView App.read app,
     [ Tx.update newId
         {| Tx.title := Some (trim (title st));
            Tx.content := Some (trim (content st));
            Tx.section := section_key <$> selectedSection st;
            Tx.createdAt := Some now |} ]).

(** The section button: [setSelectedSection(sectionId); setStep("content")] *)
Definition chooseSection (sectionId : SectionId) (st : State) : State :=
  setStep content_step (setSelectedSection (Some sectionId) st).

(** The Back button: [() => setStep("section")] *)
Definition back (st : State) : State := setStep section_step st.

(** The section picker, or the details form with what its header, its
    two inputs and the [disabled] attribute of its button show. *)
Inductive Output : Type :=
| SectionPicker (buttons : list SectionId)
| DetailsForm (section : SectionId) (titleInput contentInput : jsstring)
              (disabled : bool).

Definition render (st : State) : Completion Output :=
  match step st with
  | section_step => Normal (SectionPicker (Object_keys SECTIONS))
  | content_step =>
      match selectedSection st with
      | None => Throw TypeError
      | Some s =>
          Normal (DetailsForm s (title st) (content st)
                    (not_string (trim (title st))
                     || not_string (trim (content st))))
      end
  end.

(** The events the rendered view reacts to: a section button of the
    picker; Back, the two inputs and the Save Review button of the
    details form. A disabled button fires no click. *)
Inductive Event : Type :=
| ClickSection (sectionId : SectionId)
| ClickBack
| ChangeTitle (v : jsstring)
| ChangeContent (v : jsstring)
| ClickSave.

Definition offered (st : State) (e : Event) : bool :=
  match step st, e with
  | section_step, ClickSection _ => true
  | section_step, _ => false
  | content_step, ClickSection _ => false
  | content_step, ClickSave =>
      negb (not_string (trim (title st)) || not_string (trim (content st)))
  | content_step, _ => true
  end.

Definition dispatch (newId : jsstring) (now : Z) (e : Event)
    (st : State) (app : App.State) : State * App.State * list Tx.Op :=
  if offered st e then
    match e with
    | ClickSection sectionId => (chooseSection sectionId st, app, [])
    | ClickBack => (back st, app, [])
    | ChangeTitle v => (setTitle v st, app, [])
    | ChangeContent v => (setContent v st, app, [])
    | ClickSave => handleSubmit newId now st app
    end
  else (st, app, []).

(** A session of the view: each event comes with the values [id()] and
    [Date.now()] would return at that moment. The writes are collected in
    the order they are issued. A successful submit makes the page show the
    read view; the view mounted on return starts from [initial], which is
    the state that submit leaves. *)
Fixpoint run (events : list (Event * jsstring * Z))
    (st : State) (app : App.State) : State * App.State * list Tx.Op :=
  match events with
  | [] => (st, app, [])
  | (e, newId, now) :: events' =>
      let '(st1, app1, ops1) := dispatch newId now e st app in
      let '(st2, app2, ops2) := run events' st1 app1 in
      (st2, app2, ops1 ++ ops2)
  end.

End WriteView.

End Minimal.

(** ** The dashboard layout: App, AddReviewCard, ReviewItem *)

Module Dashboard.

(** [const SECTIONS = [ ... ] as const] *)
Record SectionInfo : Type := mkSection
  { id : SectionId;
    label : string;
    color : string }.

Definition SECTIONS : list SectionInfo :=
  [ mkSection GrowingInstant "Growing Instant" "from-violet-500 to-purple-600";
    mkSection PlanningWedding "Planning My Wedding" "from-rose-400 to-pink-500";
    mkSection BestShape "Getting Into the Best Shape of My Life"
              "from-emerald-400 to-teal-500" ]%string.

Module App.

(** [useState<SectionId>("growing-instant")],
    [useState<Review | null>(null)] *)
Record State : Type := mk
  { activeSection : SectionId;
    editingReview : option Review.t }.

Definition initial : State :=
  {| activeSection := GrowingInstant; editingReview := None |}.

Definition setActiveSection (s : SectionId) (st : State) : State :=
  {| activeSection := s; editingReview := editingReview st |}.

Definition setEditingReview (r : option Review.t) (st : State) : State :=
  {| activeSection := activeSection st; editingReview := r |}.

(** [reviews.filter((r) => r.section === activeSection)] *)
Definition sectionReviews (reviews : list Review.t)
    (activeSection : SectionId) : list Review.t :=
  filter (fun r => Review.section r = section_key activeSection) reviews.

(** [editingReview?.id === review.id] *)
Definition isEditing (editingReview : option Review.t) (review : Review.t)
  : bool :=
  match editingReview with
  | Some e => bool_decide (Review.id e = Review.id review)
  | None => false
  end.

(** [SECTIONS.find((s) => s.id === activeSection)], before the non-null
    assertion the page applies to it. *)
Definition currentSection (activeSection : SectionId) : option SectionInfo :=
  find (fun s => bool_decide (id s = activeSection)) SECTIONS.

(** [onEdit], [onCancelEdit] and [onSaveEdit] of each [<ReviewItem>] *)
Definition onEdit (review : Review.t) (st : State) : State :=
  setEditingReview (Some review) st.

Definition onCancelEdit (st : State) : State := setEditingReview None st.

Definition onSaveEdit (st : State) : State := setEditingReview None st.

(** The reviews list of the page: the placeholder, or one item per
    review of the active section with its [isEditing] prop. *)
Inductive ReviewsList : Type :=
| NoReviewsYet
| Items (items : list (Review.t * bool)).

Definition reviewsList (reviews : list Review.t) (st : State)
  : ReviewsList :=
  let sectionReviews := sectionReviews reviews (activeSection st) in
  if (length sectionReviews =? 0)%nat then NoReviewsYet
  else Items ((fun r => (r, isEditing (editingReview st) r))
                <$> sectionReviews).

End App.

Module AddReviewCard.

Record State : Type := mk
  { title : jsstring;
    content : jsstring }.

Definition initial : State := {| title := []; content := [] |}.

Definition setTitle (v : jsstring) (st : State) : State :=
  {| title := v; content := content st |}.

Definition setContent (v : jsstring) (st : State) : State :=
  {| title := title st; content := v |}.

(** [section] is the prop App passes, its [activeSection]; [newId] is
    the value of [id()] and [now] that of [Date.now()]. *)
Definition handleSubmit (section : SectionId) (newId : jsstring) (now : Z)
    (st : State) : State * list Tx.Op :=
  if not_string (trim (title st)) || not_string (trim (content st))
  then (st, [])
  else
    (setContent [] (setTitle [] st),
     [ Tx.update newId
         {| Tx.title := Some (trim (title st));
            Tx.content := Some (trim (content st));
            Tx.section := Some (section_key section);
            Tx.createdAt := Some now |} ]).

End AddReviewCard.

(** One mounted [<ReviewItem>]; as in the other layout, its state cells
    are initialised on mount and kept while the item stays in the list. *)
Module ReviewItem.

Record State : Type := mk
  { editTitle : jsstring;
    editContent : jsstring }.

Definition mount (review : Review.t) : State :=
  {| editTitle := Review.title review;
     editContent := Review.content review |}.

Definition setEditTitle (v : jsstring) (st : State) : State :=
  {| editTitle := v; editContent := editContent st |}.

Definition setEditContent (v : jsstring) (st : State) : State :=
  {| editTitle := editTitle st; editContent := v |}.

Definition handleSave (review : Review.t) (st : State) (app : App.State)
  : State * App.State * list Tx.Op :=
  if not_string (trim (editTitle st)) || not_string (trim (editContent st))
  then (st, app, [])
  else (st, App.onSaveEdit app,
        [ Tx.update (Review.id review)
            {| Tx.title := Some (trim (editTitle st));
               Tx.content := Some (trim (editContent st));
               Tx.section := None;
               Tx.createdAt := None |} ]).

Definition handleDelete (review : Review.t) (st : State) (app : App.State)
  : State * App.State * list Tx.Op :=
  (st, app, [ Tx.delete (Review.id review) ]).

(** The form with its two inputs and the Save and Cancel buttons, or
    the card with the Edit and Delete buttons. *)
Inductive Output : Type :=
| Form (titleInput contentInput : jsstring)
| Card (h4 p : jsstring) (time : Z).

Definition render (review : Review.t) (isEditing : bool) (st : State)
  : Output :=
  if isEditing then Form (editTitle st) (editContent st)
  else Card (Review.title review) (Review.content review)
            (Review.createdAt review).

Inductive Event : Type :=
| ChangeTitle (v : jsstring)
| ChangeContent (v : jsstring)
| ClickSave
| ClickCancel
| ClickEdit
| ClickDelete.

Definition offered (isEditing : bool) (e : Event) : bool :=
  match e with
  | ClickEdit | ClickDelete => negb isEditing
  | ChangeTitle _ | ChangeContent _ | ClickSave | ClickCancel => isEditing
  end.

Definition dispatch (review : Review.t) (e : Event)
    (st : State) (app : App.State) : State * App.State * list Tx.Op :=
  if offered (App.isEditing (App.editingReview app) review) e then
    match e with
    | ChangeTitle v => (setEditTitle v st, app, [])
    | ChangeContent v => (setEditContent v st, app, [])
    | ClickSave => handleSave review st app
    | ClickCancel => (st, App.onCancelEdit app, [])
    | ClickEdit => (st, App.onEdit review app, [])
    | ClickDelete => handleDelete review st app
    end
  else (st, app, []).

End ReviewItem.

(** The form as App instantiates it:
    [<AddReviewCard section={activeSection} ... />]. The card has no
    callback into App, whose state a submit therefore leaves as it is. *)
Module Page.
Definition onSubmit (newId : jsstring) (now : Z)
    (app : App.State) (card : AddReviewCard.State)
  : App.State * AddReviewCard.State * list Tx.Op :=
  let '(card', ops) :=
    AddReviewCard.handleSubmit (App.activeSection app) newId now card in
  (app, card', ops).
End Page.

End Dashboard.

(** ** Vocabulary of the statements, and sample data *)

(** The sections the accumulator object can hold as its own property. *)
Definition plain_key (k : jsstring) : Prop := inherited k = None.

Definition by_section (k : jsstring) (reviews : list Review.t)
  : list Review.t :=
  filter (fun r => Review.section r = k) reviews.

(** The accumulator after the prefix [done] of the input. *)
Definition groups_of (done : list Review.t)
    (acc : gmap jsstring (list Review.t)) : Prop :=
  ∀ k, acc !! k =
       match by_section k done with
       | [] => None
       | l => Some l
       end.

(** The group shown for one entry of [SECTIONS], if any. *)
Definition group_for (reviews : list Review.t) (editingId : option jsstring)
    (s : SectionId * string) : option Minimal.ReadView.Group :=
  match by_section (section_key s.1) reviews with
  | [] => None
  | l => Some {| Minimal.ReadView.key := s.1;
              Minimal.ReadView.heading := s.2;
              Minimal.ReadView.entries :=
                Minimal.ReadView.entry editingId <$> l |}
  end.

(** The update a commit issues for [review] with buffers [t] and [c]. *)
Definition commit_op (review : Review.t) (t c : jsstring) : Tx.Op :=
  Tx.update (Review.id review)
    {| Tx.title := Some (trim t); Tx.content := Some (trim c);
       Tx.section := None; Tx.createdAt := None |}.

(** The create a submit issues. *)
Definition create_op (newId : jsstring) (now : Z) (s : SectionId)
    (t c : jsstring) : Tx.Op :=
  Tx.update newId
    {| Tx.title := Some (trim t); Tx.content := Some (trim c);
       Tx.section := Some (section_key s); Tx.createdAt := Some now |}.

(** A string made of white space only (the empty string included). *)
Definition blank (s : jsstring) : Prop :=
  Forall (fun u => is_white_space u = true) s.

(** A string that neither starts nor ends with white space. *)
Definition no_outer_space (s : jsstring) : Prop :=
  (∀ u, head s = Some u → is_white_space u = false)
  ∧ (∀ u, last s = Some u → is_white_space u = false).

(** What the data model asks of a written text attribute, when the write
    names it: non-empty, no white space around it. *)
Definition clean (o : option jsstring) : Prop :=
  match o with
  | Some t => t ≠ [] ∧ no_outer_space t
  | None => True
  end.

Definition clean_op (op : Tx.Op) : Prop :=
  match op with
  | Tx.update _ attrs => clean (Tx.title attrs) ∧ clean (Tx.content attrs)
  | Tx.delete _ => True
  end.

(** The record a write is about. *)
Definition op_target (op : Tx.Op) : jsstring :=
  match op with
  | Tx.update eid _ => eid
  | Tx.delete eid => eid
  end.

(** The section is one of the three enumerated ids. *)
Definition listed (r : Review.t) : Prop :=
  Review.section r ∈ section_key <$> [GrowingInstant; PlanningWedding; BestShape].

#[export] Instance listed_dec (r : Review.t) : Decision (listed r).
Proof. unfold listed. apply _. Defined.

(** The reviews a rendered group shows. *)
Definition group_reviews (g : Minimal.ReadView.Group) : list Review.t :=
  Minimal.ReadView.review <$> Minimal.ReadView.entries g.

(** [typed] is [written] with white space around it. *)
Definition padded (typed written : jsstring) : Prop :=
  ∃ a b, typed = a ++ written ++ b ∧ blank a ∧ blank b.

(** A write that creates a complete review in one of the three sections. *)
Definition creates_listed (newId : jsstring) (now : Z) (op : Tx.Op) : Prop :=
  ∃ t c s, op = Tx.update newId
                  {| Tx.title := Some t; Tx.content := Some c;
                     Tx.section := Some (section_key s);
                     Tx.createdAt := Some now |}.

(** The details form is only reached with a section selected. *)
Definition section_known (st : Minimal.WriteView.State) : Prop :=
  Minimal.WriteView.step st = Minimal.WriteView.content_step →
  is_Some (Minimal.WriteView.selectedSection st).

(** A write that names a title and a content, both non-empty and without
    white space around them. *)
Definition carries_clean_text (op : Tx.Op) : Prop :=
  ∃ eid attrs t c,
    op = Tx.update eid attrs
    ∧ Tx.title attrs = Some t ∧ Tx.content attrs = Some c
    ∧ t ≠ [] ∧ no_outer_space t ∧ c ≠ [] ∧ no_outer_space c.

(** [written] is [typed] with the white space at its two ends removed, all
    of it and nothing else. *)
Definition stripped (typed written : jsstring) : Prop :=
  padded typed written ∧ written ≠ [] ∧ no_outer_space written.

(** Sample reviews, newest first as the query orders them. *)
Definition sample_reviews : list Review.t :=
  [ Review.mk (js "r3") (js "Launch") (js "Shipped it") (js "growing-instant") 300;
    Review.mk (js "r2") (js "Week 1") (js "Felt strong") (js "best-shape") 200;
    Review.mk (js "r1") (js "Plans") (js "First draft") (js "growing-instant") 100 ].

Definition constructor_review : Review.t :=
  Review.mk (js "r4") (js "Notes") (js "Misfiled") (js "constructor") 400.

Definition travel_review : Review.t :=
  Review.mk (js "r5") (js "Lisbon") (js "Three days") (js "travel") 500.


(** * Properties *)

(** ** String trimming *)

Lemma trimStart_white (s : jsstring) :
  Forall (fun c => is_white_space c = true) s → trimStart s = [].
Proof.
  induction 1 as [|c s Hc _ IH]; simpl; [done|]. by rewrite Hc.
Qed.

Lemma trim_white (s : jsstring) :
  Forall (fun c => is_white_space c = true) s → trim s = [].
Proof.
  intros Hs. unfold trim, trimEnd. by rewrite (trimStart_white s Hs).
Qed.

Lemma not_string_true (s : jsstring) : not_string s = true ↔ s = [].
Proof. by destruct s. Qed.

Lemma not_string_false (s : jsstring) : not_string s = false ↔ s ≠ [].
Proof. by destruct s. Qed.

(** ** Grouping by section *)

Section grouping.
Import Minimal.ReadView.

Lemma section_key_plain (s : SectionId) : plain_key (section_key s).
Proof. by destruct s; vm_compute. Qed.

Lemma section_key_inj (s1 s2 : SectionId) :
  section_key s1 = section_key s2 → s1 = s2.
Proof. by destruct s1, s2; vm_compute; intros H; try discriminate H. Qed.

Lemma reducer_plain (acc : gmap jsstring (list Review.t)) (r : Review.t) :
  plain_key (Review.section r) →
  reducer acc r =
    Normal (<[Review.section r :=
                default [] (acc !! Review.section r) ++ [r]]> acc).
Proof.
  intros Hk. unfold reducer, get. rewrite Hk.
  destruct (acc !! Review.section r) as [l|] eqn:Hacc; simpl.
  - by rewrite Hacc.
  - by rewrite lookup_insert_eq, insert_insert_eq.
Qed.

Lemma by_section_snoc (k : jsstring) (reviews : list Review.t) (r : Review.t) :
  by_section k (reviews ++ [r]) =
    by_section k reviews ++ (if decide (Review.section r = k) then [r] else []).
Proof.
  unfold by_section. rewrite filter_app, filter_cons, filter_nil.
  by destruct (decide _).
Qed.

Lemma groups_of_step (done : list Review.t) acc (r : Review.t) :
  groups_of done acc →
  groups_of (done ++ [r])
    (<[Review.section r := default [] (acc !! Review.section r) ++ [r]]> acc).
Proof.
  intros Hacc k. rewrite by_section_snoc.
  destruct (decide (Review.section r = k)) as [->|Hne].
  - rewrite lookup_insert_eq, (Hacc k).
    by destruct (by_section k done).
  - rewrite lookup_insert_ne, app_nil_r by done. apply Hacc.
Qed.

Lemma reduce_plain (rest done : list Review.t) acc :
  Forall (fun r => plain_key (Review.section r)) rest →
  groups_of done acc →
  ∃ grouped, reduce reducer rest acc = Normal grouped
             ∧ groups_of (done ++ rest) grouped.
Proof.
  intros Hrest. revert done acc.
  induction Hrest as [|r rest Hr _ IH]; intros done acc Hacc; simpl.
  - exists acc. by rewrite app_nil_r.
  - rewrite (reducer_plain acc r Hr). simpl.
    destruct (IH _ _ (groups_of_step done acc r Hacc)) as (g & Hg & Hinv).
    exists g. split; [done|]. by rewrite <- app_assoc in Hinv.
Qed.

Lemma groupedBySection_plain (reviews : list Review.t) :
  Forall (fun r => plain_key (Review.section r)) reviews →
  ∃ grouped, groupedBySection reviews = Normal grouped
             ∧ groups_of reviews grouped.
Proof.
  intros H. apply (reduce_plain reviews [] ∅ H).
  intros k. by rewrite lookup_empty.
Qed.

Lemma reduce_app {A B} (f : B → A → Completion B) (l1 l2 : list A) (init : B) :
  reduce f (l1 ++ l2) init = bind (reduce f l1 init) (reduce f l2).
Proof.
  revert init. induction l1 as [|x l1 IH]; intros init; simpl; [done|].
  destruct (f init x); simpl; [apply IH|done].
Qed.

(** The first review whose section names an inherited property aborts the
    grouping. *)
Lemma groupedBySection_inherited_throws (pre post : list Review.t) (r : Review.t) :
  Forall (fun r => plain_key (Review.section r)) pre →
  ¬ plain_key (Review.section r) →
  groupedBySection (pre ++ r :: post) = Throw TypeError.
Proof.
  intros Hpre Hr. unfold groupedBySection. rewrite reduce_app.
  destruct (reduce_plain pre [] ∅ Hpre) as (grouped & -> & Hg).
  { intros k. by rewrite lookup_empty. }
  simpl. unfold reducer, get.
  assert (grouped !! Review.section r = None) as Hnone.
  { rewrite (Hg (Review.section r)). simpl.
    destruct (by_section (Review.section r) pre) as [|x l] eqn:E; [done|].
    assert (x ∈ by_section (Review.section r) pre) as Hx by (rewrite E; left).
    apply list_elem_of_filter in Hx as [Hs Hx].
    destruct Hr. rewrite <- Hs.
    by apply (proj1 (Forall_forall _ _) Hpre). }
  rewrite Hnone. unfold plain_key in Hr.
  destruct (inherited (Review.section r)) as [len|] eqn:E; [|done].
  cbn [not_property]. by rewrite Hnone.
Qed.

Lemma groups_of_lookup (reviews : list Review.t) grouped k l :
  groups_of reviews grouped → grouped !! k = Some l →
  l = by_section k reviews ∧ l ≠ [].
Proof.
  intros Hg Hk. rewrite (Hg k) in Hk.
  destruct (by_section k reviews); [done|]. by inversion Hk.
Qed.

Lemma groups_of_elem (reviews : list Review.t) grouped (r : Review.t) :
  groups_of reviews grouped → r ∈ reviews →
  ∃ l, grouped !! Review.section r = Some l ∧ r ∈ l.
Proof.
  intros Hg Hr.
  assert (r ∈ by_section (Review.section r) reviews) as Hin
    by (by apply list_elem_of_filter).
  rewrite (Hg (Review.section r)).
  destruct (by_section (Review.section r) reviews) as [|x l] eqn:E.
  - by apply elem_of_nil in Hin.
  - eauto.
Qed.

End grouping.

(** ** Rendering the groups *)

Section rendering.
Import Minimal Minimal.ReadView.

Lemma map_array_normal {A B} (f : A → Completion B) (g : A → B) (l : list A) :
  (∀ x, f x = Normal (g x)) → map_array f l = Normal (g <$> l).
Proof.
  intros Hf. induction l as [|x l IH]; simpl; [done|].
  by rewrite Hf, IH.
Qed.

Lemma omap_fmap_children {A B} (f : A → option B) (l : list A) :
  omap (fun c => c) (f <$> l) = omap f l.
Proof.
  induction l as [|x l IH]; csimpl; [done|].
  rewrite IH. by destruct (f x).
Qed.

Lemma render_section_plain reviews grouped editingId s :
  groups_of reviews grouped →
  render_section grouped editingId s = Normal (group_for reviews editingId s).
Proof.
  intros Hg. unfold render_section, group_for, get.
  rewrite (Hg (section_key s.1)), (section_key_plain s.1).
  by destruct (by_section (section_key s.1) reviews).
Qed.

Lemma ReadView_plain (reviews : list Review.t) (editingId : option jsstring) :
  Forall (fun r => plain_key (Review.section r)) reviews →
  ∃ out, ReadView reviews editingId = Normal out
         ∧ rendered out = omap (group_for reviews editingId) SECTIONS.
Proof.
  intros Hplain. unfold ReadView.
  destruct reviews as [|r reviews]; simpl length; simpl Nat.eqb; cbv iota.
  - by exists NoReviewsYet.
  - destruct (groupedBySection_plain _ Hplain) as (grouped & -> & Hg).
    unfold bind.
    rewrite (map_array_normal _ (group_for (r :: reviews) editingId))
      by (intros s; by apply render_section_plain).
    eexists. split; [reflexivity|]. apply omap_fmap_children.
Qed.

Lemma group_for_key reviews editingId s g :
  group_for reviews editingId s = Some g → key g = s.1.
Proof.
  unfold group_for. destruct (by_section _ _); [done|].
  by intros [= <-].
Qed.

Lemma group_for_entries reviews editingId s g :
  group_for reviews editingId s = Some g →
  review <$> entries g = by_section (section_key (key g)) reviews
  ∧ entries g ≠ [].
Proof.
  unfold group_for.
  destruct (by_section (section_key s.1) reviews) as [|x l] eqn:E; [done|].
  intros [= <-]. simpl. rewrite E. split; [|done].
  f_equal. rewrite <- list_fmap_compose.
  by rewrite list_fmap_id.
Qed.

Lemma omap_keys_sublist reviews editingId (tbl : list (SectionId * string)) :
  key <$> omap (group_for reviews editingId) tbl `sublist_of` Object_keys tbl.
Proof.
  induction tbl as [|s tbl IH]; simpl; [done|].
  destruct (group_for reviews editingId s) as [g|] eqn:E; simpl.
  - rewrite (group_for_key _ _ _ _ E). by constructor.
  - by constructor.
Qed.

End rendering.

(** ** Review Projector *)

(** C1. Grouping mode of the minimal layout, on reviews whose section is one
    of the three enumerated ids: the reduce returns a mapping in which every
    review of the input sits under the key equal to its section and under
    no other key, no key holds an empty list, each list is the input
    restricted to that section in input order, and no rendered group is
    empty. *)
Theorem grouping_partitions_by_section
    (reviews : list Review.t) (editingId : option jsstring) :
  Forall (fun r => ∃ s, Review.section r = section_key s) reviews →
  ∃ grouped out,
    Minimal.ReadView.groupedBySection reviews = Normal grouped
    ∧ (∀ r, r ∈ reviews →
         ∃ l, grouped !! Review.section r = Some l ∧ r ∈ l)
    ∧ (∀ k l r, grouped !! k = Some l → r ∈ l →
         r ∈ reviews ∧ k = Review.section r)
    ∧ (∀ k l, grouped !! k = Some l → l ≠ [])
    ∧ (∀ k l, grouped !! k = Some l →
         l = filter (fun r => Review.section r = k) reviews)
    ∧ Minimal.ReadView.ReadView reviews editingId = Normal out
    ∧ (∀ g, g ∈ Minimal.ReadView.rendered out →
         Minimal.ReadView.entries g ≠ []
         ∧ Minimal.ReadView.review <$> Minimal.ReadView.entries g =
             filter (fun r => Review.section r =
                              section_key (Minimal.ReadView.key g)) reviews).
Proof.
  intros Hsec.
  assert (Forall (fun r => plain_key (Review.section r)) reviews) as Hplain.
  { eapply Forall_impl; [exact Hsec|].
    intros r [s ->]. apply section_key_plain. }
  destruct (groupedBySection_plain reviews Hplain) as (grouped & Hgrouped & Hg).
  destruct (ReadView_plain reviews editingId Hplain) as (out & Hout & Hren).
  exists grouped, out.
  split; [done|]. split; [|split; [|split; [|split; [|split; [done|]]]]].
  - intros r Hr. by apply groups_of_elem with reviews.
  - intros k l r Hk Hr.
    destruct (groups_of_lookup _ _ _ _ Hg Hk) as [-> _].
    apply list_elem_of_filter in Hr as [Hs Hr]. by split.
  - intros k l Hk. by destruct (groups_of_lookup _ _ _ _ Hg Hk).
  - intros k l Hk. by destruct (groups_of_lookup _ _ _ _ Hg Hk).
  - intros g Hgr. rewrite Hren in Hgr.
    apply list_elem_of_omap in Hgr as (s & _ & Hs).
    destruct (group_for_entries _ _ _ _ Hs) as [Hent Hne]. by split.
Qed.

Lemma grouping_partitions_by_section_witness :
  Forall (fun r => ∃ s, Review.section r = section_key s) sample_reviews
  ∧ ∃ grouped out,
      Minimal.ReadView.groupedBySection sample_reviews = Normal grouped
      ∧ (∀ r, r ∈ sample_reviews →
           ∃ l, grouped !! Review.section r = Some l ∧ r ∈ l)
      ∧ (∀ k l r, grouped !! k = Some l → r ∈ l →
           r ∈ sample_reviews ∧ k = Review.section r)
      ∧ (∀ k l, grouped !! k = Some l → l ≠ [])
      ∧ (∀ k l, grouped !! k = Some l →
           l = filter (fun r => Review.section r = k) sample_reviews)
      ∧ Minimal.ReadView.ReadView sample_reviews None = Normal out
      ∧ (∀ g, g ∈ Minimal.ReadView.rendered out →
           Minimal.ReadView.entries g ≠ []
           ∧ Minimal.ReadView.review <$> Minimal.ReadView.entries g =
               filter (fun r => Review.section r =
                                section_key (Minimal.ReadView.key g))
                      sample_reviews).
Proof.
  assert (Forall (fun r => ∃ s, Review.section r = section_key s)
            sample_reviews) as H.
  { repeat constructor;
      [by exists GrowingInstant | by exists BestShape | by exists GrowingInstant]. }
  split; [exact H|].
  exact (grouping_partitions_by_section sample_reviews None H).
Defined.

Lemma sublist_filter_max {A} (P : A → Prop) `{!∀ x, Decision (P x)}
    (l k : list A) :
  l `sublist_of` k → Forall P l → l `sublist_of` filter P k.
Proof.
  induction 1 as [|x l k _ IH|x l k _ IH]; intros Hl.
  - done.
  - apply Forall_cons in Hl as [Hx Hl].
    rewrite filter_cons_True by done. constructor. by apply IH.
  - rewrite filter_cons. destruct (decide (P x)); [constructor|]; by apply IH.
Qed.

(** C2. Filter mode of the dashboard layout: the reviews shown for the
    active section are a subsequence of the input (original relative order),
    every one of them has that section, every subsequence of the input made
    of reviews of that section is contained in it (nothing is left out), and
    when no review matches the result is the empty sequence, shown as the
    placeholder; the filter is a total function, it raises nothing. *)
Theorem filter_selects_active_section
    (reviews : list Review.t) (activeSection : SectionId) :
  let out := Dashboard.App.sectionReviews reviews activeSection in
  out `sublist_of` reviews
  ∧ Forall (fun r => Review.section r = section_key activeSection) out
  ∧ (∀ l, l `sublist_of` reviews →
          Forall (fun r => Review.section r = section_key activeSection) l →
          l `sublist_of` out)
  ∧ (∀ r, r ∈ out ↔
          r ∈ reviews ∧ Review.section r = section_key activeSection)
  ∧ ((∀ r, r ∈ reviews → Review.section r ≠ section_key activeSection) →
     out = []
     ∧ ∀ editingReview,
         Dashboard.App.reviewsList reviews
           (Dashboard.App.mk activeSection editingReview)
         = Dashboard.App.NoReviewsYet).
Proof.
  set (P := fun r => Review.section r = section_key activeSection).
  assert (∀ r, r ∈ filter P reviews ↔ r ∈ reviews ∧ P r) as Helem.
  { intros r. rewrite list_elem_of_filter. tauto. }
  assert ((∀ r, r ∈ reviews → ¬ P r) → filter P reviews = []) as Hnone.
  { intros Hno. destruct (filter P reviews) as [|r l] eqn:E; [done|].
    assert (r ∈ filter P reviews) as Hr by (rewrite E; left).
    apply list_elem_of_filter in Hr as [Hs Hr]. by destruct (Hno r Hr). }
  unfold Dashboard.App.sectionReviews. fold P. simpl.
  split; [apply sublist_filter|].
  split; [apply Forall_forall; intros r Hr; by apply Helem in Hr as [_ ?]|].
  split; [intros l Hl HP; by apply sublist_filter_max|].
  split; [exact Helem|].
  intros Hno. split; [by apply Hnone|].
  intros editingReview.
  unfold Dashboard.App.reviewsList, Dashboard.App.sectionReviews. simpl.
  fold P. by rewrite (Hnone Hno).
Qed.

(** C10, as stated, fails: a review whose section is the string
    ["constructor"] has none of the three enumerated sections, yet grouping
    it raises a TypeError instead of hiding it, because the accumulator
    object inherits a property of that name. *)
Lemma unlisted_section_counterexample :
  (∀ s, Review.section constructor_review ≠ section_key s)
  ∧ Minimal.ReadView.groupedBySection [constructor_review] = Throw TypeError
  ∧ Minimal.ReadView.ReadView [constructor_review] None = Throw TypeError.
Proof.
  split; [|by vm_compute].
  intros s. by destruct s; vm_compute.
Qed.

(** C10, amended. When no review's section names a property inherited from
    [Object.prototype], grouping and rendering raise nothing; a review whose
    section is none of the three enumerated ids sits under its own key of
    the grouped mapping and appears in no rendered group; and the rendered
    groups follow the enumeration order growing-instant, planning-wedding,
    best-shape whatever the input order. *)
Theorem unlisted_section_not_rendered
    (reviews : list Review.t) (editingId : option jsstring) :
  Forall (fun r => inherited (Review.section r) = None) reviews →
  ∃ grouped out,
    Minimal.ReadView.groupedBySection reviews = Normal grouped
    ∧ Minimal.ReadView.ReadView reviews editingId = Normal out
    ∧ (∀ r, r ∈ reviews → (∀ s, Review.section r ≠ section_key s) →
         (∃ l, grouped !! Review.section r = Some l ∧ r ∈ l)
         ∧ ∀ g, g ∈ Minimal.ReadView.rendered out →
                r ∉ Minimal.ReadView.review <$> Minimal.ReadView.entries g)
    ∧ Minimal.ReadView.key <$> Minimal.ReadView.rendered out
        `sublist_of` [GrowingInstant; PlanningWedding; BestShape].
Proof.
  intros Hplain.
  destruct (groupedBySection_plain reviews Hplain) as (grouped & Hgrouped & Hg).
  destruct (ReadView_plain reviews editingId Hplain) as (out & Hout & Hren).
  exists grouped, out. split; [done|]. split; [done|]. split.
  - intros r Hr Hunlisted. split; [by apply groups_of_elem with reviews|].
    intros g Hgr Hin. rewrite Hren in Hgr.
    apply list_elem_of_omap in Hgr as (s & _ & Hs).
    destruct (group_for_entries _ _ _ _ Hs) as [Hent _].
    rewrite Hent in Hin. apply list_elem_of_filter in Hin as [Hsec _].
    by apply (Hunlisted (Minimal.ReadView.key g)).
  - rewrite Hren. apply (omap_keys_sublist reviews editingId Minimal.SECTIONS).
Qed.

Lemma unlisted_section_not_rendered_witness :
  Forall (fun r => inherited (Review.section r) = None)
    (travel_review :: sample_reviews)
  ∧ ∃ grouped out,
      Minimal.ReadView.groupedBySection (travel_review :: sample_reviews)
        = Normal grouped
      ∧ Minimal.ReadView.ReadView (travel_review :: sample_reviews) None
        = Normal out
      ∧ (∀ r, r ∈ travel_review :: sample_reviews →
           (∀ s, Review.section r ≠ section_key s) →
           (∃ l, grouped !! Review.section r = Some l ∧ r ∈ l)
           ∧ ∀ g, g ∈ Minimal.ReadView.rendered out →
                  r ∉ Minimal.ReadView.review <$> Minimal.ReadView.entries g)
      ∧ Minimal.ReadView.key <$> Minimal.ReadView.rendered out
          `sublist_of` [GrowingInstant; PlanningWedding; BestShape].
Proof.
  assert (Forall (fun r => inherited (Review.section r) = None)
            (travel_review :: sample_reviews)) as H.
  { repeat constructor; by vm_compute. }
  split; [exact H|].
  exact (unlisted_section_not_rendered (travel_review :: sample_reviews) None H).
Defined.

(** ** Edit-State Controller *)

Lemma filter_at_most_one {A B} (f : A → B) (P : A → Prop)
    `{!∀ x, Decision (P x)} (l : list A) :
  (∀ x y, P x → P y → f x = f y) →
  NoDup (f <$> l) → length (filter P l) ≤ 1.
Proof.
  intros Hsame. induction l as [|x l IH]; csimpl; [lia|].
  intros Hnd. apply NoDup_cons in Hnd as [Hx Hnd].
  rewrite filter_cons. destruct (decide (P x)) as [Hp|]; [|by apply IH].
  assert (filter P l = []) as ->; [|simpl; lia].
  destruct (filter P l) as [|y k] eqn:E; [done|].
  assert (y ∈ filter P l) as Hy by (rewrite E; left).
  apply list_elem_of_filter in Hy as [Hpy Hy].
  destruct Hx. rewrite (Hsame x y Hp Hpy). by apply list_elem_of_fmap_2.
Qed.

(** C4. Last click wins: after begin-edit on [x] and then on [y], two
    reviews with distinct ids, the controller of either layout holds [y] and
    not [x]; and in any controller state two reviews shown in edit mode have
    the same id, so among reviews with pairwise distinct ids at most one is
    in edit mode. *)
Theorem last_begin_edit_wins (x y : Review.t) :
  Review.id x ≠ Review.id y →
  (∀ app,
     let app' := Minimal.ReadView.onEdit y (Minimal.ReadView.onEdit x app) in
     Minimal.App.editingId app' = Some (Review.id y)
     ∧ Minimal.App.editingId app' ≠ Some (Review.id x)
     ∧ Minimal.ReadView.isEditing
         (Minimal.ReadView.entry (Minimal.App.editingId app') y) = true
     ∧ Minimal.ReadView.isEditing
         (Minimal.ReadView.entry (Minimal.App.editingId app') x) = false)
  ∧ (∀ app,
       let app' := Dashboard.App.onEdit y (Dashboard.App.onEdit x app) in
       Dashboard.App.editingReview app' = Some y
       ∧ Dashboard.App.isEditing (Dashboard.App.editingReview app') y = true
       ∧ Dashboard.App.isEditing (Dashboard.App.editingReview app') x = false)
  ∧ (∀ editingId (reviews : list Review.t),
       NoDup (Review.id <$> reviews) →
       length (filter (fun r => Minimal.ReadView.isEditing
                                  (Minimal.ReadView.entry editingId r) = true)
                      reviews) ≤ 1)
  ∧ (∀ editingReview (reviews : list Review.t),
       NoDup (Review.id <$> reviews) →
       length (filter (fun r => Dashboard.App.isEditing editingReview r = true)
                      reviews) ≤ 1).
Proof.
  intros Hxy. split; [|split; [|split]].
  - intros app. simpl. split; [done|]. split; [congruence|].
    split; [by apply bool_decide_eq_true|].
    apply bool_decide_eq_false. congruence.
  - intros app. simpl. split; [done|].
    split; [by apply bool_decide_eq_true|].
    apply bool_decide_eq_false. congruence.
  - intros editingId reviews. apply filter_at_most_one.
    intros r1 r2 H1 H2. simpl in H1, H2.
    apply bool_decide_eq_true in H1, H2. congruence.
  - intros editingReview reviews. apply filter_at_most_one.
    intros r1 r2 H1 H2. destruct editingReview as [e|]; simpl in H1, H2; [|done].
    apply bool_decide_eq_true in H1, H2. congruence.
Qed.

Lemma last_begin_edit_wins_witness :
  Review.id constructor_review ≠ Review.id travel_review
  ∧ Minimal.App.editingId
      (Minimal.ReadView.onEdit travel_review
         (Minimal.ReadView.onEdit constructor_review Minimal.App.initial))
    = Some (Review.id travel_review)
  ∧ Dashboard.App.editingReview
      (Dashboard.App.onEdit travel_review
         (Dashboard.App.onEdit constructor_review Dashboard.App.initial))
    = Some travel_review.
Proof.
  assert (Review.id constructor_review ≠ Review.id travel_review) as H
    by (by vm_compute).
  destruct (last_begin_edit_wins constructor_review travel_review H)
    as (Hmin & Hdash & _).
  split; [exact H|]. split.
  - exact (proj1 (Hmin Minimal.App.initial)).
  - exact (proj1 (Hdash Dashboard.App.initial)).
Defined.

Lemma validation_passes (t c : jsstring) :
  trim t ≠ [] → trim c ≠ [] →
  not_string (trim t) || not_string (trim c) = false.
Proof.
  intros Ht Hc. apply not_string_false in Ht, Hc. by rewrite Ht, Hc.
Qed.

Lemma validation_fails (t c : jsstring) :
  trim t = [] ∨ trim c = [] →
  not_string (trim t) || not_string (trim c) = true.
Proof.
  intros [H|H]; apply not_string_true in H; rewrite H; [done|].
  apply orb_true_r.
Qed.

(** C5. Commit, in both layouts. With both buffers non-empty after trimming
    it issues one update of the edited review that names the attributes
    title and content only, and the controller becomes idle; applied to a
    store, that update leaves the section and creation time of the edited
    review and every other review as they were. With either trimmed buffer
    empty it issues nothing and leaves the controller state as it is. *)
Theorem commit_updates_title_and_content
    (review : Review.t) (t c : jsstring) :
  (trim t ≠ [] → trim c ≠ [] →
     (∀ app,
        Minimal.ReviewEntry.handleSave review (Minimal.ReviewEntry.mk t c) app
        = (Minimal.ReviewEntry.mk t c,
           Minimal.App.mk (Minimal.App.view app) None,
           [commit_op review t c]))
     ∧ (∀ app,
          Dashboard.ReviewItem.handleSave review
            (Dashboard.ReviewItem.mk t c) app
          = (Dashboard.ReviewItem.mk t c,
             Dashboard.App.mk (Dashboard.App.activeSection app) None,
             [commit_op review t c]))
     ∧ (∀ (store : gmap jsstring Tx.Attrs) k,
          k ≠ Review.id review →
          Tx.transact (commit_op review t c) store !! k = store !! k)
     ∧ (∀ (store : gmap jsstring Tx.Attrs) e,
          store !! Review.id review = Some e →
          Tx.transact (commit_op review t c) store !! Review.id review
          = Some {| Tx.title := Some (trim t);
                    Tx.content := Some (trim c);
                    Tx.section := Tx.section e;
                    Tx.createdAt := Tx.createdAt e |}))
  ∧ (trim t = [] ∨ trim c = [] →
       (∀ app,
          Minimal.ReviewEntry.handleSave review (Minimal.ReviewEntry.mk t c) app
          = (Minimal.ReviewEntry.mk t c, app, []))
       ∧ (∀ app,
            Dashboard.ReviewItem.handleSave review
              (Dashboard.ReviewItem.mk t c) app
            = (Dashboard.ReviewItem.mk t c, app, []))).
Proof.
  split.
  - intros Ht Hc. pose proof (validation_passes t c Ht Hc) as Hv.
    split; [|split; [|split]].
    + intros app. unfold Minimal.ReviewEntry.handleSave. simpl. by rewrite Hv.
    + intros app. unfold Dashboard.ReviewItem.handleSave. simpl. by rewrite Hv.
    + intros store k Hk. simpl. by rewrite lookup_insert_ne.
    + intros store e He. simpl. by rewrite lookup_insert_eq, He.
  - intros Hbad. pose proof (validation_fails t c Hbad) as Hv. split.
    + intros app. unfold Minimal.ReviewEntry.handleSave. simpl. by rewrite Hv.
    + intros app. unfold Dashboard.ReviewItem.handleSave. simpl. by rewrite Hv.
Qed.

Lemma commit_updates_title_and_content_witness :
  (trim (js " Week 1 ") ≠ [] ∧ trim (js "Felt strong") ≠ []
   ∧ Minimal.ReviewEntry.handleSave travel_review
       (Minimal.ReviewEntry.mk (js " Week 1 ") (js "Felt strong"))
       (Minimal.App.mk Minimal.App.read (Some (Review.id travel_review)))
     = (Minimal.ReviewEntry.mk (js " Week 1 ") (js "Felt strong"),
        Minimal.App.mk Minimal.App.read None,
        [commit_op travel_review (js " Week 1 ") (js "Felt strong")]))
  ∧ ((trim (js "  ") = [] ∨ trim (js "Felt strong") = [])
     ∧ Minimal.ReviewEntry.handleSave travel_review
         (Minimal.ReviewEntry.mk (js "  ") (js "Felt strong"))
         (Minimal.App.mk Minimal.App.read (Some (Review.id travel_review)))
       = (Minimal.ReviewEntry.mk (js "  ") (js "Felt strong"),
          Minimal.App.mk Minimal.App.read (Some (Review.id travel_review)),
          [])).
Proof.
  assert (trim (js " Week 1 ") ≠ []) as Ht by (by vm_compute).
  assert (trim (js "Felt strong") ≠ []) as Hc by (by vm_compute).
  assert (trim (js "  ") = [] ∨ trim (js "Felt strong") = []) as Hbad
    by (left; by vm_compute).
  split.
  - split; [exact Ht|]. split; [exact Hc|].
    exact (proj1 (proj1 (commit_updates_title_and_content
                           travel_review (js " Week 1 ") (js "Felt strong"))
                        Ht Hc) _).
  - split; [exact Hbad|].
    exact (proj1 (proj2 (commit_updates_title_and_content
                           travel_review (js "  ") (js "Felt strong"))
                        Hbad) _).
Defined.



(** C8, as stated, fails: after typing in the title input and cancelling, a
    second begin-edit shows the typed text, not the persisted title. *)
Lemma cancel_keeps_buffer_counterexample :
  let r := travel_review in
  let s0 := (Minimal.ReviewEntry.mount r, Minimal.App.initial) in
  let step e (s : Minimal.ReviewEntry.State * Minimal.App.State) :=
    (Minimal.ReviewEntry.dispatch r e s.1 s.2).1 in
  let s4 :=
    step Minimal.ReviewEntry.ClickArticle
      (step Minimal.ReviewEntry.ClickCancel
         (step (Minimal.ReviewEntry.ChangeTitle (js "Porto"))
            (step Minimal.ReviewEntry.ClickArticle s0))) in
  Minimal.ReviewEntry.render r
    (bool_decide (Minimal.App.editingId s4.2 = Some (Review.id r))) s4.1
  = Minimal.ReviewEntry.Form (js "Porto") (Review.content r)
  ∧ js "Porto" ≠ Review.title r.
Proof. by vm_compute. Qed.

(** C8, amended. Cancel, in both layouts, makes the controller idle, issues
    no write and leaves the edit buffer of the entry as it is: a following
    begin-edit shows the buffer as it stood at the cancel. The buffer holds
    the persisted title and content when the entry mounts. *)
Theorem cancel_returns_to_idle_without_write
    (review : Review.t) (t c : jsstring) :
  (∀ view,
     Minimal.ReviewEntry.dispatch review Minimal.ReviewEntry.ClickCancel
       (Minimal.ReviewEntry.mk t c)
       (Minimal.App.mk view (Some (Review.id review)))
     = (Minimal.ReviewEntry.mk t c, Minimal.App.mk view None, [])
     ∧ Minimal.ReviewEntry.dispatch review Minimal.ReviewEntry.ClickArticle
         (Minimal.ReviewEntry.mk t c) (Minimal.App.mk view None)
       = (Minimal.ReviewEntry.mk t c,
          Minimal.App.mk view (Some (Review.id review)), [])
     ∧ Minimal.ReviewEntry.render review true (Minimal.ReviewEntry.mk t c)
       = Minimal.ReviewEntry.Form t c)
  ∧ (∀ active,
       Dashboard.ReviewItem.dispatch review Dashboard.ReviewItem.ClickCancel
         (Dashboard.ReviewItem.mk t c) (Dashboard.App.mk active (Some review))
       = (Dashboard.ReviewItem.mk t c, Dashboard.App.mk active None, [])
       ∧ Dashboard.ReviewItem.dispatch review Dashboard.ReviewItem.ClickEdit
           (Dashboard.ReviewItem.mk t c) (Dashboard.App.mk active None)
         = (Dashboard.ReviewItem.mk t c,
            Dashboard.App.mk active (Some review), [])
       ∧ Dashboard.ReviewItem.render review true (Dashboard.ReviewItem.mk t c)
         = Dashboard.ReviewItem.Form t c)
  ∧ Minimal.ReviewEntry.mount review
    = Minimal.ReviewEntry.mk (Review.title review) (Review.content review)
  ∧ Dashboard.ReviewItem.mount review
    = Dashboard.ReviewItem.mk (Review.title review) (Review.content review).
Proof.
  split; [|split; [|done]].
  - intros view. unfold Minimal.ReviewEntry.dispatch. simpl.
    by rewrite bool_decide_eq_true_2.
  - intros active. unfold Dashboard.ReviewItem.dispatch. simpl.
    by rewrite bool_decide_eq_true_2.
Qed.

(** ** Entry Composer *)

Lemma not_section_Some (s : SectionId) :
  Minimal.WriteView.not_section (Some s) = false.
Proof. by destruct s. Qed.

(** C3, as stated, fails in the dashboard layout: after a successful submit
    the section stays selected. Typing again and submitting, with no section
    chosen in between, creates a second review in the same section. *)
Lemma submit_keeps_active_section_counterexample :
  let app := Dashboard.App.mk BestShape None in
  let card := Dashboard.AddReviewCard.mk (js "Week 1") (js "Felt strong") in
  let '(app1, card1, ops1) := Dashboard.Page.onSubmit (js "r6") 600 app card in
  let card1' :=
    Dashboard.AddReviewCard.setContent (js "Tired")
      (Dashboard.AddReviewCard.setTitle (js "Week 2") card1) in
  let '(app2, card2, ops2) :=
    Dashboard.Page.onSubmit (js "r7") 700 app1 card1' in
  ops1 = [create_op (js "r6") 600 BestShape (js "Week 1") (js "Felt strong")]
  ∧ Dashboard.App.activeSection app1 = BestShape
  ∧ ops2 = [create_op (js "r7") 700 BestShape (js "Week 2") (js "Tired")].
Proof. by vm_compute. Qed.

(** C3, amended. With a section selected and title and content non-empty
    after trimming, a submit issues exactly one write, which creates a
    review under the fresh id with the trimmed title, the trimmed content,
    the selected section and the current time. In the minimal layout it then
    clears title, content and selected section and shows the section picker
    again (and the page switches to the read view). In the dashboard layout
    it clears title and content, and the active section stays selected. *)
Theorem submit_creates_review_and_resets
    (newId : jsstring) (now : Z) (s : SectionId) (t c : jsstring) :
  trim t ≠ [] → trim c ≠ [] →
  (∀ step app,
     Minimal.WriteView.handleSubmit newId now
       (Minimal.WriteView.mk step (Some s) t c) app
     = (Minimal.WriteView.initial,
        Minimal.App.mk Minimal.App.read (Minimal.App.editingId app),
        [create_op newId now s t c]))
  ∧ Minimal.WriteView.render Minimal.WriteView.initial
    = Normal (Minimal.WriteView.SectionPicker
                [GrowingInstant; PlanningWedding; BestShape])
  ∧ (∀ app,
       Dashboard.App.activeSection app = s →
       Dashboard.Page.onSubmit newId now app (Dashboard.AddReviewCard.mk t c)
       = (app, Dashboard.AddReviewCard.initial, [create_op newId now s t c]))
  ∧ (∀ store : gmap jsstring Tx.Attrs,
       store !! newId = None →
       Tx.transact (create_op newId now s t c) store
       = <[newId := {| Tx.title := Some (trim t);
                       Tx.content := Some (trim c);
                       Tx.section := Some (section_key s);
                       Tx.createdAt := Some now |}]> store).
Proof.
  intros Ht Hc. pose proof (validation_passes t c Ht Hc) as Hv.
  split; [|split; [done|split]].
  - intros step app. unfold Minimal.WriteView.handleSubmit.
    cbn [Minimal.WriteView.selectedSection Minimal.WriteView.title
         Minimal.WriteView.content].
    by rewrite (not_section_Some s), orb_false_l, Hv.
  - intros app <-.
    unfold Dashboard.Page.onSubmit, Dashboard.AddReviewCard.handleSubmit.
    simpl. by rewrite Hv.
  - intros store Hfresh. simpl. by rewrite Hfresh.
Qed.

Lemma submit_creates_review_and_resets_witness :
  trim (js "Week 1") ≠ [] ∧ trim (js " Felt strong ") ≠ []
  ∧ Minimal.WriteView.handleSubmit (js "r6") 600
      (Minimal.WriteView.mk Minimal.WriteView.content_step (Some BestShape)
         (js "Week 1") (js " Felt strong "))
      (Minimal.App.mk Minimal.App.write None)
    = (Minimal.WriteView.initial, Minimal.App.mk Minimal.App.read None,
       [create_op (js "r6") 600 BestShape (js "Week 1") (js " Felt strong ")]).
Proof.
  assert (trim (js "Week 1") ≠ []) as Ht by (by vm_compute).
  assert (trim (js " Felt strong ") ≠ []) as Hc by (by vm_compute).
  split; [exact Ht|]. split; [exact Hc|].
  exact (proj1 (submit_creates_review_and_resets (js "r6") 600 BestShape
                  (js "Week 1") (js " Felt strong ") Ht Hc) _ _).
Defined.

(** C7, as stated, fails: Back leaves the typed title and content in the
    state, and choosing a section again shows them. *)
Lemma back_keeps_fields_counterexample :
  let st :=
    Minimal.WriteView.mk Minimal.WriteView.content_step (Some BestShape)
      (js "Week 1") (js "Felt strong") in
  Minimal.WriteView.title (Minimal.WriteView.back st) = js "Week 1"
  ∧ Minimal.WriteView.title (Minimal.WriteView.back st) ≠ []
  ∧ Minimal.WriteView.content (Minimal.WriteView.back st) ≠ []
  ∧ Minimal.WriteView.render
      (Minimal.WriteView.chooseSection GrowingInstant
         (Minimal.WriteView.back st))
    = Normal (Minimal.WriteView.DetailsForm GrowingInstant
                (js "Week 1") (js "Felt strong") false).
Proof. by vm_compute. Qed.

(** C7, amended. Back shows the section picker again and changes nothing
    else: title, content and the selected section stay in the state, and
    the details form opened by the next section choice shows the title and
    content typed before. *)
Theorem back_returns_to_section_picker
    (sel : option SectionId) (t c : jsstring) :
  let st := Minimal.WriteView.mk Minimal.WriteView.content_step sel t c in
  Minimal.WriteView.back st
  = Minimal.WriteView.mk Minimal.WriteView.section_step sel t c
  ∧ Minimal.WriteView.render (Minimal.WriteView.back st)
    = Normal (Minimal.WriteView.SectionPicker
                [GrowingInstant; PlanningWedding; BestShape])
  ∧ ∀ s, Minimal.WriteView.render
           (Minimal.WriteView.chooseSection s (Minimal.WriteView.back st))
         = Normal (Minimal.WriteView.DetailsForm s t c
                     (not_string (trim t) || not_string (trim c))).
Proof. done. Qed.

(** C9. A submit whose title consists of white space only, whatever the
    content: in both layouts no write is issued and the composer state is
    returned as it was, so the details form stays with the same fields (and
    its button is disabled). *)
Theorem blank_title_submit_is_noop (t c : jsstring) :
  Forall (fun u => is_white_space u = true) t →
  (∀ newId now step sel app,
     Minimal.WriteView.handleSubmit newId now
       (Minimal.WriteView.mk step sel t c) app
     = (Minimal.WriteView.mk step sel t c, app, []))
  ∧ (∀ s,
       Minimal.WriteView.render
         (Minimal.WriteView.mk Minimal.WriteView.content_step (Some s) t c)
       = Normal (Minimal.WriteView.DetailsForm s t c true))
  ∧ (∀ section newId now,
       Dashboard.AddReviewCard.handleSubmit section newId now
         (Dashboard.AddReviewCard.mk t c)
       = (Dashboard.AddReviewCard.mk t c, []))
  ∧ (∀ newId now app,
       Dashboard.Page.onSubmit newId now app (Dashboard.AddReviewCard.mk t c)
       = (app, Dashboard.AddReviewCard.mk t c, [])).
Proof.
  intros Hws. pose proof (trim_white t Hws) as Ht.
  split; [|split; [|split]].
  - intros newId now step sel app. unfold Minimal.WriteView.handleSubmit.
    simpl. rewrite Ht. simpl. by rewrite orb_true_r.
  - intros s. unfold Minimal.WriteView.render. simpl. by rewrite Ht.
  - intros section newId now. unfold Dashboard.AddReviewCard.handleSubmit.
    simpl. by rewrite Ht.
  - intros newId now app.
    unfold Dashboard.Page.onSubmit, Dashboard.AddReviewCard.handleSubmit.
    simpl. by rewrite Ht.
Qed.

Lemma blank_title_submit_is_noop_witness :
  Forall (fun u => is_white_space u = true) (js " ")
  ∧ Minimal.WriteView.handleSubmit (js "r6") 600
      (Minimal.WriteView.mk Minimal.WriteView.content_step (Some BestShape)
         (js " ") (js "Felt strong"))
      (Minimal.App.mk Minimal.App.write None)
    = (Minimal.WriteView.mk Minimal.WriteView.content_step (Some BestShape)
         (js " ") (js "Felt strong"),
       Minimal.App.mk Minimal.App.write None, []).
Proof.
  assert (Forall (fun u => is_white_space u = true) (js " ")) as H
    by (repeat constructor).
  split; [exact H|].
  exact (proj1 (blank_title_submit_is_noop (js " ") (js "Felt strong") H)
           _ _ _ _ _).
Defined.

(** * Further properties of the page *)

(** ** What [trim] removes *)

Lemma trimStart_split (s : jsstring) :
  ∃ ws, s = ws ++ trimStart s ∧ blank ws
        ∧ ∀ u, head (trimStart s) = Some u → is_white_space u = false.
Proof.
  induction s as [|c s (ws & Hs & Hws & Hhead)]; simpl.
  - exists []. split; [done|]. split; [constructor|done].
  - destruct (is_white_space c) eqn:Hc.
    + exists (c :: ws). split; [by rewrite Hs at 1|]. split; [|done].
      by constructor.
    + exists []. split; [done|]. split; [constructor|].
      intros u [= <-]. done.
Qed.

Lemma trimStart_fixed (s : jsstring) :
  (∀ u, head s = Some u → is_white_space u = false) → trimStart s = s.
Proof.
  destruct s as [|c s]; simpl; [done|].
  intros H. by rewrite (H c eq_refl).
Qed.

Lemma trimStart_nil (s : jsstring) : trimStart s = [] ↔ blank s.
Proof.
  split; [|apply trimStart_white].
  intros H. destruct (trimStart_split s) as (ws & Hs & Hws & _).
  rewrite H, app_nil_r in Hs. by subst.
Qed.

Lemma blank_reverse (s : jsstring) : blank (reverse s) ↔ blank s.
Proof. unfold blank. by rewrite Forall_reverse. Qed.

(** The text is the trimmed text between two runs of white space, and the
    trimmed text neither starts nor ends with white space. *)
Lemma trim_split (s : jsstring) :
  ∃ ws1 ws2, s = ws1 ++ trim s ++ ws2 ∧ blank ws1 ∧ blank ws2
             ∧ no_outer_space (trim s).
Proof.
  destruct (trimStart_split s) as (ws1 & Hs & Hws1 & Hhead).
  destruct (trimStart_split (reverse (trimStart s))) as (ws2 & Hr & Hws2 & Hlast).
  assert (trimStart s = trim s ++ reverse ws2) as Hmid.
  { rewrite <- (reverse_involutive (trimStart s)). rewrite Hr at 1.
    by rewrite reverse_app. }
  exists ws1, (reverse ws2). split; [by rewrite <- Hmid|].
  split; [done|]. split; [by apply blank_reverse|]. split.
  - intros u Hu. apply Hhead. rewrite Hmid.
    destruct (trim s); [done|]. exact Hu.
  - intros u Hu. apply Hlast. unfold trim, trimEnd in Hu.
    by rewrite last_reverse in Hu.
Qed.

Lemma trim_fixed (s : jsstring) : no_outer_space s → trim s = s.
Proof.
  intros [Hhead Hlast]. unfold trim, trimEnd.
  rewrite (trimStart_fixed s Hhead), trimStart_fixed.
  - apply reverse_involutive.
  - intros u Hu. apply Hlast. by rewrite <- head_reverse.
Qed.

Lemma trim_idemp (s : jsstring) : trim (trim s) = trim s.
Proof.
  destruct (trim_split s) as (_ & _ & _ & _ & _ & H). by apply trim_fixed.
Qed.

Lemma trim_nil (s : jsstring) : trim s = [] ↔ blank s.
Proof.
  split; [|apply trim_white].
  intros H. destruct (trim_split s) as (ws1 & ws2 & Hs & H1 & H2 & _).
  rewrite H in Hs. rewrite Hs. by apply Forall_app.
Qed.

Lemma not_string_trim (s : jsstring) : not_string (trim s) = true ↔ blank s.
Proof. by rewrite not_string_true, trim_nil. Qed.

Lemma guard_blank (t c : jsstring) :
  not_string (trim t) || not_string (trim c) = true ↔ blank t ∨ blank c.
Proof. by rewrite orb_true_iff, !not_string_trim. Qed.

Lemma guard_not_blank (t c : jsstring) :
  not_string (trim t) || not_string (trim c) = false ↔ ¬ (blank t ∨ blank c).
Proof. rewrite <- guard_blank. by destruct (_ || _). Qed.

Lemma clean_trim (s : jsstring) : ¬ blank s → clean (Some (trim s)).
Proof.
  intros Hs. split.
  - by rewrite trim_nil.
  - by destruct (trim_split s) as (_ & _ & _ & _ & _ & H).
Qed.

(** ** Review Projector: errors, placeholders, and what is shown *)

Lemma Exists_first {A} (P : A → Prop) `{!∀ x, Decision (P x)} (l : list A) :
  Exists P l → ∃ pre x post, l = pre ++ x :: post ∧ Forall (fun y => ¬ P y) pre ∧ P x.
Proof.
  induction l as [|y l IH]; intros Hex; [by apply Exists_nil in Hex|].
  destruct (decide (P y)) as [Hy|Hy].
  - exists [], y, l. by repeat split.
  - apply Exists_cons in Hex as [Hex|Hex]; [done|].
    destruct (IH Hex) as (pre & x & post & -> & Hpre & Hx).
    exists (y :: pre), x, post. split; [done|]. split; [by constructor|done].
Qed.

Lemma not_Exists_inherited (reviews : list Review.t) :
  ¬ Exists (fun r => inherited (Review.section r) ≠ None) reviews →
  Forall (fun r => plain_key (Review.section r)) reviews.
Proof.
  intros H. apply Forall_forall. intros r Hr. unfold plain_key.
  destruct (inherited (Review.section r)) eqn:E; [|done].
  destruct H. apply Exists_exists. exists r. split; [done|]. by rewrite E.
Qed.

(** X1. The grouping raises exactly when some review's section names a
    property inherited from [Object.prototype], and so does the read view;
    on every other input both return normally. *)
Theorem grouping_raises_iff_inherited_section
    (reviews : list Review.t) (editingId : option jsstring) :
  (Minimal.ReadView.groupedBySection reviews = Throw TypeError
   ↔ Exists (fun r => inherited (Review.section r) ≠ None) reviews)
  ∧ (Minimal.ReadView.ReadView reviews editingId = Throw TypeError
     ↔ Exists (fun r => inherited (Review.section r) ≠ None) reviews).
Proof.
  destruct (decide (Exists (fun r => inherited (Review.section r) ≠ None)
                      reviews)) as [Hex|Hno].
  - destruct (Exists_first _ reviews Hex) as (pre & r & post & -> & Hpre & Hr).
    assert (Forall (fun r => plain_key (Review.section r)) pre) as Hplain.
    { eapply Forall_impl; [exact Hpre|]. intros x Hx. unfold plain_key.
      destruct (inherited (Review.section x)) eqn:E; [|done].
      exfalso. apply Hx. by rewrite E. }
    assert (Minimal.ReadView.groupedBySection (pre ++ r :: post) = Throw TypeError)
      as Hthrow by (by apply groupedBySection_inherited_throws).
    split; split; try done.
    intros _. unfold Minimal.ReadView.ReadView. rewrite Hthrow.
    by destruct pre.
  - pose proof (not_Exists_inherited reviews Hno) as Hplain.
    destruct (groupedBySection_plain reviews Hplain) as (g & Hg & _).
    destruct (ReadView_plain reviews editingId Hplain) as (out & Hout & _).
    split; split; try done.
    + by rewrite Hg.
    + by rewrite Hout.
Qed.

Lemma section_keys_distinct (s1 s2 : SectionId) (k : jsstring) :
  k = section_key s1 → k = section_key s2 → s1 = s2.
Proof. intros -> H. by apply section_key_inj. Qed.

Lemma listed_iff (r : Review.t) : listed r ↔ ∃ s, Review.section r = section_key s.
Proof.
  unfold listed. rewrite list_elem_of_fmap. split.
  - intros (s & Hs & _). by exists s.
  - intros [s Hs]. exists s. split; [done|]. destruct s; set_solver.
Qed.

Lemma three_sections_permutation (reviews : list Review.t) :
  by_section (section_key GrowingInstant) reviews
  ++ by_section (section_key PlanningWedding) reviews
  ++ by_section (section_key BestShape) reviews
  ≡ₚ filter listed reviews.
Proof.
  unfold by_section. induction reviews as [|r l IH]; [done|].
  rewrite !filter_cons.
  destruct (decide (listed r)) as [Hl|Hl].
  - apply listed_iff in Hl as [s Hs].
    destruct s; rewrite Hs; repeat case_decide;
      try match goal with
          | H : section_key _ = section_key _ |- _ =>
              apply section_key_inj in H; discriminate H
          end;
      try match goal with
          | H : section_key ?a ≠ section_key ?a |- _ => by destruct H
          end;
      simpl; rewrite <- ?Permutation_middle; by constructor.
  - repeat case_decide;
      try (destruct Hl; apply listed_iff; eexists; eassumption).
    exact IH.
Qed.

Lemma concat_group_reviews reviews editingId (tbl : list (SectionId * string)) :
  concat (group_reviews <$> omap (group_for reviews editingId) tbl)
  = concat ((fun s => by_section (section_key s.1) reviews) <$> tbl).
Proof.
  induction tbl as [|s tbl IH]; csimpl; [done|].
  destruct (group_for reviews editingId s) as [g|] eqn:E; csimpl.
  - destruct (group_for_entries _ _ _ _ E) as [Hent _].
    rewrite (group_for_key _ _ _ _ E) in Hent.
    unfold group_reviews at 1. by rewrite Hent, IH.
  - unfold group_for in E.
    destruct (by_section (section_key s.1) reviews); [|done]. by rewrite IH.
Qed.

(** X2. When the grouping does not raise, the reviews of the rendered
    groups, taken together, are the input reviews whose section is one of
    the three enumerated ids, each as often as the input has it: nothing is
    lost, nothing is shown twice. *)
Theorem rendered_reviews_are_the_listed_ones
    (reviews : list Review.t) (editingId : option jsstring) :
  Forall (fun r => inherited (Review.section r) = None) reviews →
  ∃ out,
    Minimal.ReadView.ReadView reviews editingId = Normal out
    ∧ concat (group_reviews <$> Minimal.ReadView.rendered out)
      ≡ₚ filter listed reviews.
Proof.
  intros Hplain.
  destruct (ReadView_plain reviews editingId Hplain) as (out & Hout & Hren).
  exists out. split; [done|].
  rewrite Hren, concat_group_reviews. csimpl. rewrite app_nil_r.
  apply three_sections_permutation.
Qed.

Lemma rendered_reviews_are_the_listed_ones_witness :
  Forall (fun r => inherited (Review.section r) = None)
    (travel_review :: sample_reviews)
  ∧ ∃ out,
      Minimal.ReadView.ReadView (travel_review :: sample_reviews) None
      = Normal out
      ∧ concat (group_reviews <$> Minimal.ReadView.rendered out)
        ≡ₚ filter listed (travel_review :: sample_reviews).
Proof.
  assert (Forall (fun r => inherited (Review.section r) = None)
            (travel_review :: sample_reviews)) as H.
  { repeat constructor; by vm_compute. }
  split; [exact H|].
  exact (rendered_reviews_are_the_listed_ones
           (travel_review :: sample_reviews) None H).
Defined.

Lemma by_section_nil (k : jsstring) (reviews : list Review.t) :
  (∀ r, r ∈ reviews → Review.section r ≠ k) ↔ by_section k reviews = [].
Proof.
  unfold by_section. split.
  - intros Hno. destruct (filter _ reviews) as [|r l] eqn:E; [done|].
    assert (r ∈ filter (fun r => Review.section r = k) reviews) as Hr
      by (rewrite E; left).
    apply list_elem_of_filter in Hr as [Hs Hr]. by destruct (Hno r Hr).
  - intros Hnil r Hr Hs.
    assert (r ∈ filter (fun r => Review.section r = k) reviews) as Hin
      by (by apply list_elem_of_filter).
    rewrite Hnil in Hin. by apply elem_of_nil in Hin.
Qed.

(** X3. The read view shows its "No reviews yet" placeholder exactly on the
    empty input; a non-empty input made only of reviews whose section is
    neither one of the three enumerated ids nor the name of an inherited
    property gives a page with no group and no placeholder. The dashboard
    list shows its placeholder exactly when no review has the active
    section. *)
Theorem placeholder_conditions
    (reviews : list Review.t) (editingId : option jsstring) :
  (Minimal.ReadView.ReadView reviews editingId
     = Normal Minimal.ReadView.NoReviewsYet ↔ reviews = [])
  ∧ (reviews ≠ [] →
     Forall (fun r => inherited (Review.section r) = None ∧ ¬ listed r) reviews →
     Minimal.ReadView.ReadView reviews editingId
     = Normal (Minimal.ReadView.Main [None; None; None]))
  ∧ (∀ activeSection editingReview,
       Dashboard.App.reviewsList reviews
         (Dashboard.App.mk activeSection editingReview)
       = Dashboard.App.NoReviewsYet
       ↔ ∀ r, r ∈ reviews → Review.section r ≠ section_key activeSection).
Proof.
  split; [|split].
  - split; [|by intros ->].
    destruct reviews as [|r l]; [done|]. intros H. exfalso.
    unfold Minimal.ReadView.ReadView in H. simpl length in H.
    simpl Nat.eqb in H. cbv iota in H.
    destruct (Minimal.ReadView.groupedBySection (r :: l)) as [g|]; [|done].
    unfold bind in H.
    destruct (map_array _ Minimal.SECTIONS); by inversion H.
  - intros Hne Hall.
    assert (Forall (fun r => plain_key (Review.section r)) reviews) as Hplain.
    { eapply Forall_impl; [exact Hall|]. by intros r [? _]. }
    destruct (groupedBySection_plain reviews Hplain) as (g & Hg & Hgroups).
    unfold Minimal.ReadView.ReadView. destruct reviews as [|r l]; [done|].
    simpl length. simpl Nat.eqb. cbv iota. rewrite Hg. unfold bind.
    rewrite (map_array_normal _ (group_for (r :: l) editingId))
      by (intros s; by apply render_section_plain).
    do 2 f_equal.
    assert (∀ s, group_for (r :: l) editingId s = None) as Hnone.
    { intros s. unfold group_for.
      rewrite (proj1 (by_section_nil (section_key s.1) (r :: l))); [done|].
      intros x Hx Hs.
      destruct (proj2 (proj1 (Forall_forall _ _) Hall x Hx)).
      apply listed_iff. by exists s.1. }
    unfold Minimal.SECTIONS. csimpl. by rewrite !Hnone.
  - intros activeSection editingReview.
    rewrite (by_section_nil (section_key activeSection) reviews).
    unfold Dashboard.App.reviewsList, Dashboard.App.sectionReviews, by_section.
    simpl. by destruct (filter _ reviews).
Qed.

(** X4. The three tabs of the dashboard split the reviews with an
    enumerated section: no review is under two tabs, a review with any
    other section (also one that names an inherited property) is under no
    tab, and the three lists together are the listed reviews, each as often
    as the input has it. *)
Theorem tabs_partition_listed_reviews (reviews : list Review.t) :
  (∀ r s1 s2,
     r ∈ Dashboard.App.sectionReviews reviews s1 →
     r ∈ Dashboard.App.sectionReviews reviews s2 → s1 = s2)
  ∧ (∀ r, ¬ listed r → ∀ s, r ∉ Dashboard.App.sectionReviews reviews s)
  ∧ Dashboard.App.sectionReviews reviews GrowingInstant
    ++ Dashboard.App.sectionReviews reviews PlanningWedding
    ++ Dashboard.App.sectionReviews reviews BestShape
    ≡ₚ filter listed reviews.
Proof.
  split; [|split].
  - intros r s1 s2 H1 H2.
    apply list_elem_of_filter in H1 as [H1 _].
    apply list_elem_of_filter in H2 as [H2 _].
    by apply (section_keys_distinct s1 s2 (Review.section r)).
  - intros r Hr s Hin. apply list_elem_of_filter in Hin as [Hs _].
    apply Hr, listed_iff. by exists s.
  - apply three_sections_permutation.
Qed.

Lemma every_section_in_table (s : SectionId) :
  ∃ lbl, (s, lbl) ∈ Minimal.SECTIONS.
Proof. destruct s; eexists; apply list_elem_of_In; simpl; eauto. Qed.

(** X5. The two layouts show the same reviews per section: when the
    grouping does not raise, each rendered group of the read view holds
    exactly the list the dashboard shows under the tab of that section, and
    a section has a rendered group exactly when its tab is not empty. *)
Theorem layouts_show_same_reviews
    (reviews : list Review.t) (editingId : option jsstring) :
  Forall (fun r => inherited (Review.section r) = None) reviews →
  ∃ out,
    Minimal.ReadView.ReadView reviews editingId = Normal out
    ∧ (∀ g, g ∈ Minimal.ReadView.rendered out →
         group_reviews g
         = Dashboard.App.sectionReviews reviews (Minimal.ReadView.key g))
    ∧ (∀ s, s ∈ Minimal.ReadView.key <$> Minimal.ReadView.rendered out
            ↔ Dashboard.App.sectionReviews reviews s ≠ []).
Proof.
  intros Hplain.
  destruct (ReadView_plain reviews editingId Hplain) as (out & Hout & Hren).
  exists out. split; [done|]. rewrite Hren. split.
  - intros g Hg. apply list_elem_of_omap in Hg as (s & _ & Hs).
    by destruct (group_for_entries _ _ _ _ Hs).
  - intros s. rewrite list_elem_of_fmap. split.
    + intros (g & -> & Hg). apply list_elem_of_omap in Hg as (s & _ & Hs).
      destruct (group_for_entries _ _ _ _ Hs) as [Hent Hne].
      intros Hnil. apply Hne. apply fmap_nil_inv with Minimal.ReadView.review.
      rewrite Hent. exact Hnil.
    + intros Hne. destruct (every_section_in_table s) as [lbl Hlbl].
      destruct (group_for reviews editingId (s, lbl)) as [g|] eqn:E.
      * exists g. split; [by rewrite (group_for_key _ _ _ _ E)|].
        apply list_elem_of_omap. by exists (s, lbl).
      * unfold group_for in E. simpl in E.
        unfold Dashboard.App.sectionReviews in Hne. unfold by_section in E.
        by destruct (filter _ reviews).
Qed.

Lemma layouts_show_same_reviews_witness :
  Forall (fun r => inherited (Review.section r) = None) sample_reviews
  ∧ ∃ out,
      Minimal.ReadView.ReadView sample_reviews None = Normal out
      ∧ (∀ g, g ∈ Minimal.ReadView.rendered out →
           group_reviews g
           = Dashboard.App.sectionReviews sample_reviews
               (Minimal.ReadView.key g))
      ∧ (∀ s, s ∈ Minimal.ReadView.key <$> Minimal.ReadView.rendered out
              ↔ Dashboard.App.sectionReviews sample_reviews s ≠ []).
Proof.
  assert (Forall (fun r => inherited (Review.section r) = None)
            sample_reviews) as H.
  { repeat constructor; by vm_compute. }
  split; [exact H|].
  exact (layouts_show_same_reviews sample_reviews None H).
Defined.

(** X6. The lookup of the active section in the dashboard's table never
    comes back undefined: for every section id it finds the entry with that
    id, whose label is the one the minimal layout shows for it. *)
Theorem currentSection_is_found (activeSection : SectionId) :
  ∃ info,
    Dashboard.App.currentSection activeSection = Some info
    ∧ Dashboard.id info = activeSection
    ∧ (activeSection, Dashboard.label info) ∈ Minimal.SECTIONS.
Proof.
  destruct activeSection; eexists; (split; [reflexivity|]);
    (split; [reflexivity|]); apply list_elem_of_In; simpl; eauto.
Qed.

(** ** What the handlers write *)

Lemma guard_cases (t c : jsstring) :
  (not_string (trim t) || not_string (trim c) = true ∧ (blank t ∨ blank c))
  ∨ (not_string (trim t) || not_string (trim c) = false
     ∧ ¬ blank t ∧ ¬ blank c).
Proof.
  destruct (not_string (trim t) || not_string (trim c)) eqn:E.
  - left. split; [done|]. by apply guard_blank.
  - right. split; [done|]. apply guard_not_blank in E. tauto.
Qed.

Lemma padded_trim (s : jsstring) : padded s (trim s).
Proof.
  destruct (trim_split s) as (a & b & Hs & Ha & Hb & _). by exists a, b.
Qed.

Lemma trimStart_app_blank (a x : jsstring) :
  blank a → trimStart (a ++ x) = trimStart x.
Proof.
  induction 1 as [|u a Hu _ IH]; simpl; [done|]. by rewrite Hu.
Qed.

Lemma trim_stripped (s : jsstring) : ¬ blank s → stripped s (trim s).
Proof.
  intros Hs. split; [apply padded_trim|]. by apply clean_trim.
Qed.

(** Stripping has one result, the one [trim] computes. *)
Lemma stripped_is_trim (typed written : jsstring) :
  stripped typed written → written = trim typed.
Proof.
  intros ((a & b & -> & Ha & Hb) & Hne & Hhead & Hlast).
  unfold trim, trimEnd.
  rewrite (trimStart_app_blank a _ Ha), (trimStart_fixed (written ++ b)).
  - rewrite reverse_app, (trimStart_app_blank (reverse b)) by
      (by apply blank_reverse).
    rewrite trimStart_fixed; [by rewrite reverse_involutive|].
    intros u Hu. apply Hlast. by rewrite <- head_reverse.
  - intros u Hu. apply Hhead. by destruct written.
Qed.

Lemma clean_pair_op (eid : jsstring) (t c : jsstring) sec cre :
  ¬ blank t → ¬ blank c →
  carries_clean_text
    (Tx.update eid (Tx.mkAttrs (Some (trim t)) (Some (trim c)) sec cre)).
Proof.
  intros Ht Hc. exists eid, (Tx.mkAttrs (Some (trim t)) (Some (trim c)) sec cre).
  exists (trim t), (trim c).
  destruct (clean_trim t Ht) as [Ht1 Ht2].
  destruct (clean_trim c Hc) as [Hc1 Hc2].
  exact (conj eq_refl (conj eq_refl (conj eq_refl
           (conj Ht1 (conj Ht2 (conj Hc1 Hc2)))))).
Qed.

(** X7. Whatever the state, every write the four form handlers issue is an
    update that names a title and a content, both non-empty and neither
    starting nor ending with white space. *)
Theorem every_write_is_clean :
  (∀ newId now st app,
     Forall carries_clean_text
       (Minimal.WriteView.handleSubmit newId now st app).2)
  ∧ (∀ section newId now st,
       Forall carries_clean_text
         (Dashboard.AddReviewCard.handleSubmit section newId now st).2)
  ∧ (∀ review st app,
       Forall carries_clean_text
         (Minimal.ReviewEntry.handleSave review st app).2)
  ∧ (∀ review st app,
       Forall carries_clean_text
         (Dashboard.ReviewItem.handleSave review st app).2).
Proof.
  split; [|split; [|split]].
  - intros newId now [step sel t c] app.
    unfold Minimal.WriteView.handleSubmit.
    cbn [Minimal.WriteView.selectedSection Minimal.WriteView.title
         Minimal.WriteView.content].
    destruct (Minimal.WriteView.not_section sel); [by constructor|].
    rewrite orb_false_l.
    destruct (guard_cases t c) as [[-> _]|(-> & Ht & Hc)]; [by constructor|].
    constructor; [|done]. by apply clean_pair_op.
  - intros section newId now [t c].
    unfold Dashboard.AddReviewCard.handleSubmit.
    cbn [Dashboard.AddReviewCard.title Dashboard.AddReviewCard.content].
    destruct (guard_cases t c) as [[-> _]|(-> & Ht & Hc)]; [by constructor|].
    constructor; [|done]. by apply clean_pair_op.
  - intros review [t c] app. unfold Minimal.ReviewEntry.handleSave.
    cbn [Minimal.ReviewEntry.editTitle Minimal.ReviewEntry.editContent].
    destruct (guard_cases t c) as [[-> _]|(-> & Ht & Hc)]; [by constructor|].
    constructor; [|done]. by apply clean_pair_op.
  - intros review [t c] app. unfold Dashboard.ReviewItem.handleSave.
    cbn [Dashboard.ReviewItem.editTitle Dashboard.ReviewItem.editContent].
    destruct (guard_cases t c) as [[-> _]|(-> & Ht & Hc)]; [by constructor|].
    constructor; [|done]. by apply clean_pair_op.
Qed.

(** X8. The text a handler writes is the typed text with the white space
    at its two ends removed, all of it and nothing else: the typed title is
    the written title between two runs of white space, the written title is
    non-empty and neither starts nor ends with white space, and so for the
    content; this holds for the commit and for the submit of both layouts.
    These conditions leave one possible written text. *)
Theorem written_text_is_typed_text_unpadded (t c : jsstring) :
  (∀ review app eid attrs,
     Tx.update eid attrs
       ∈ (Minimal.ReviewEntry.handleSave review
            (Minimal.ReviewEntry.mk t c) app).2 →
     ∃ t' c', Tx.title attrs = Some t' ∧ Tx.content attrs = Some c'
              ∧ stripped t t' ∧ stripped c c')
  ∧ (∀ review app eid attrs,
       Tx.update eid attrs
         ∈ (Dashboard.ReviewItem.handleSave review
              (Dashboard.ReviewItem.mk t c) app).2 →
       ∃ t' c', Tx.title attrs = Some t' ∧ Tx.content attrs = Some c'
                ∧ stripped t t' ∧ stripped c c')
  ∧ (∀ newId now step sel app eid attrs,
       Tx.update eid attrs
         ∈ (Minimal.WriteView.handleSubmit newId now
              (Minimal.WriteView.mk step sel t c) app).2 →
       ∃ t' c', Tx.title attrs = Some t' ∧ Tx.content attrs = Some c'
                ∧ stripped t t' ∧ stripped c c')
  ∧ (∀ section newId now eid attrs,
       Tx.update eid attrs
         ∈ (Dashboard.AddReviewCard.handleSubmit section newId now
              (Dashboard.AddReviewCard.mk t c)).2 →
       ∃ t' c', Tx.title attrs = Some t' ∧ Tx.content attrs = Some c'
                ∧ stripped t t' ∧ stripped c c')
  ∧ (∀ typed w w', stripped typed w → stripped typed w' → w = w').
Proof.
  assert (∀ eid eid' attrs sec cre,
            ¬ blank t → ¬ blank c →
            Tx.update eid attrs
              ∈ [Tx.update eid' (Tx.mkAttrs (Some (trim t)) (Some (trim c))
                                   sec cre)] →
            ∃ t' c', Tx.title attrs = Some t' ∧ Tx.content attrs = Some c'
                     ∧ stripped t t' ∧ stripped c c') as Hone.
  { intros eid eid' attrs sec cre Ht Hc Hin.
    apply list_elem_of_singleton in Hin as [= -> ->].
    exists (trim t), (trim c). repeat split; try done;
      by apply trim_stripped. }
  split; [|split; [|split; [|split]]].
  - intros review app eid attrs. unfold Minimal.ReviewEntry.handleSave.
    cbn [Minimal.ReviewEntry.editTitle Minimal.ReviewEntry.editContent].
    destruct (guard_cases t c) as [[-> _]|(-> & Ht & Hc)]; simpl;
      [by intros ?%elem_of_nil|by apply Hone].
  - intros review app eid attrs. unfold Dashboard.ReviewItem.handleSave.
    cbn [Dashboard.ReviewItem.editTitle Dashboard.ReviewItem.editContent].
    destruct (guard_cases t c) as [[-> _]|(-> & Ht & Hc)]; simpl;
      [by intros ?%elem_of_nil|by apply Hone].
  - intros newId now step sel app eid attrs.
    unfold Minimal.WriteView.handleSubmit.
    cbn [Minimal.WriteView.selectedSection Minimal.WriteView.title
         Minimal.WriteView.content].
    destruct (Minimal.WriteView.not_section sel); simpl;
      [by intros ?%elem_of_nil|].
    destruct (guard_cases t c) as [[-> _]|(-> & Ht & Hc)]; simpl;
      [by intros ?%elem_of_nil|by apply Hone].
  - intros section newId now eid attrs.
    unfold Dashboard.AddReviewCard.handleSubmit.
    cbn [Dashboard.AddReviewCard.title Dashboard.AddReviewCard.content].
    destruct (guard_cases t c) as [[-> _]|(-> & Ht & Hc)]; simpl;
      [by intros ?%elem_of_nil|by apply Hone].
  - intros typed w w' Hw Hw'.
    by rewrite (stripped_is_trim _ _ Hw), (stripped_is_trim _ _ Hw').
Qed.

(** X9. A submit is refused, with no write and no change of state, exactly
    when the title or the content is made of white space only (or, in the
    minimal layout, when no section is selected); the Save Review button of
    the details form is disabled in exactly those cases. *)
Theorem submit_refused_iff_blank (t c : jsstring) :
  (∀ newId now step s app,
     Minimal.WriteView.handleSubmit newId now
       (Minimal.WriteView.mk step (Some s) t c) app
     = (Minimal.WriteView.mk step (Some s) t c, app, [])
     ↔ blank t ∨ blank c)
  ∧ (∀ newId now step app,
       Minimal.WriteView.handleSubmit newId now
         (Minimal.WriteView.mk step None t c) app
       = (Minimal.WriteView.mk step None t c, app, []))
  ∧ (∀ section newId now,
       Dashboard.AddReviewCard.handleSubmit section newId now
         (Dashboard.AddReviewCard.mk t c)
       = (Dashboard.AddReviewCard.mk t c, [])
       ↔ blank t ∨ blank c)
  ∧ (∀ s, ∃ disabled,
       Minimal.WriteView.render
         (Minimal.WriteView.mk Minimal.WriteView.content_step (Some s) t c)
       = Normal (Minimal.WriteView.DetailsForm s t c disabled)
       ∧ (disabled = true ↔ blank t ∨ blank c)).
Proof.
  split; [|split; [done|split]].
  - intros newId now step s app. unfold Minimal.WriteView.handleSubmit.
    cbn [Minimal.WriteView.selectedSection Minimal.WriteView.title
         Minimal.WriteView.content].
    rewrite (not_section_Some s), orb_false_l.
    destruct (guard_cases t c) as [[-> Hb]|(-> & Ht & Hc)]; [done|].
    split; [by intros [=]|tauto].
  - intros section newId now. unfold Dashboard.AddReviewCard.handleSubmit.
    cbn [Dashboard.AddReviewCard.title Dashboard.AddReviewCard.content].
    destruct (guard_cases t c) as [[-> Hb]|(-> & Ht & Hc)]; [done|].
    split; [by intros [=]|tauto].
  - intros s. eexists. split; [reflexivity|]. apply guard_blank.
Qed.

(** X10. A commit is refused, with no write and the editor left open,
    exactly when the title buffer or the content buffer is made of white
    space only; this holds in both layouts. *)
Theorem save_refused_iff_blank (review : Review.t) (t c : jsstring) :
  (∀ app,
     Minimal.ReviewEntry.handleSave review (Minimal.ReviewEntry.mk t c) app
     = (Minimal.ReviewEntry.mk t c, app, [])
     ↔ blank t ∨ blank c)
  ∧ (∀ app,
       Dashboard.ReviewItem.handleSave review (Dashboard.ReviewItem.mk t c) app
       = (Dashboard.ReviewItem.mk t c, app, [])
       ↔ blank t ∨ blank c).
Proof.
  split.
  - intros app. unfold Minimal.ReviewEntry.handleSave.
    cbn [Minimal.ReviewEntry.editTitle Minimal.ReviewEntry.editContent].
    destruct (guard_cases t c) as [[-> Hb]|(-> & Ht & Hc)]; [done|].
    split; [by intros [=]|tauto].
  - intros app. unfold Dashboard.ReviewItem.handleSave.
    cbn [Dashboard.ReviewItem.editTitle Dashboard.ReviewItem.editContent].
    destruct (guard_cases t c) as [[-> Hb]|(-> & Ht & Hc)]; [done|].
    split; [by intros [=]|tauto].
Qed.

(** X11. Whatever the state, a write issued by a submit creates a complete
    review: it is an update of the fresh id naming all four attributes,
    with the current time and a section that is one of the three enumerated
    ids. *)
Theorem every_create_is_complete_and_listed (newId : jsstring) (now : Z) :
  (∀ st app,
     Forall (creates_listed newId now)
       (Minimal.WriteView.handleSubmit newId now st app).2)
  ∧ (∀ section st,
       Forall (creates_listed newId now)
         (Dashboard.AddReviewCard.handleSubmit section newId now st).2).
Proof.
  split.
  - intros [step sel t c] app. unfold Minimal.WriteView.handleSubmit.
    cbn [Minimal.WriteView.selectedSection Minimal.WriteView.title
         Minimal.WriteView.content].
    destruct sel as [s|]; [|by constructor].
    rewrite (not_section_Some s), orb_false_l.
    destruct (_ || _); simpl; [by constructor|].
    constructor; [|done]. by exists (trim t), (trim c), s.
  - intros section [t c]. unfold Dashboard.AddReviewCard.handleSubmit.
    cbn [Dashboard.AddReviewCard.title Dashboard.AddReviewCard.content].
    destruct (_ || _); simpl; [by constructor|].
    constructor; [|done]. by exists (trim t), (trim c), section.
Qed.

(** ** Events on one review *)

Ltac dispatch_cases :=
  repeat match goal with
         | |- context [bool_decide ?P] => destruct (bool_decide P) eqn:?
         | |- context [not_string ?s || not_string ?s'] =>
             destruct (not_string s || not_string s') eqn:?
         | |- context [Dashboard.App.isEditing ?e ?r] =>
             destruct (Dashboard.App.isEditing e r) eqn:?
         end; simpl.

(** X12. An event on the element of one review concerns that review only:
    it issues at most one write, every write it issues is about that
    review's id, and it leaves the controller as it was, idle, or editing
    that review; the shown view or tab is never changed. This holds in both
    layouts. *)
Theorem dispatch_concerns_own_review (review : Review.t) :
  (∀ e st app,
     let r := Minimal.ReviewEntry.dispatch review e st app in
     length r.2 ≤ 1
     ∧ Forall (fun op => op_target op = Review.id review) r.2
     ∧ Minimal.App.view r.1.2 = Minimal.App.view app
     ∧ (Minimal.App.editingId r.1.2 = Minimal.App.editingId app
        ∨ Minimal.App.editingId r.1.2 = None
        ∨ Minimal.App.editingId r.1.2 = Some (Review.id review)))
  ∧ (∀ e st app,
       let r := Dashboard.ReviewItem.dispatch review e st app in
       length r.2 ≤ 1
       ∧ Forall (fun op => op_target op = Review.id review) r.2
       ∧ Dashboard.App.activeSection r.1.2 = Dashboard.App.activeSection app
       ∧ (Dashboard.App.editingReview r.1.2 = Dashboard.App.editingReview app
          ∨ Dashboard.App.editingReview r.1.2 = None
          ∨ Dashboard.App.editingReview r.1.2 = Some review)).
Proof.
  split.
  - intros e st app.
    unfold Minimal.ReviewEntry.dispatch, Minimal.ReviewEntry.handleSave,
      Minimal.ReviewEntry.handleDelete.
    destruct e; simpl; dispatch_cases;
      (split; [lia|]); (split; [by repeat constructor|]); (split; [done|]);
      auto.
  - intros e st app.
    unfold Dashboard.ReviewItem.dispatch, Dashboard.ReviewItem.handleSave,
      Dashboard.ReviewItem.handleDelete.
    destruct e; simpl; dispatch_cases;
      (split; [lia|]); (split; [by repeat constructor|]); (split; [done|]);
      auto.
Qed.

(** X13. Writes need the right mode. In the minimal layout an event on a
    review issues a write only while that review is the one being edited.
    In the dashboard layout an update is issued only while the review is
    being edited and a delete only while it is not. *)
Theorem writes_need_the_right_mode (review : Review.t) :
  (∀ e st app,
     (Minimal.ReviewEntry.dispatch review e st app).2 ≠ [] →
     Minimal.App.editingId app = Some (Review.id review))
  ∧ (∀ e st app eid attrs,
       Tx.update eid attrs ∈ (Dashboard.ReviewItem.dispatch review e st app).2 →
       Dashboard.App.isEditing (Dashboard.App.editingReview app) review = true)
  ∧ (∀ e st app eid,
       Tx.delete eid ∈ (Dashboard.ReviewItem.dispatch review e st app).2 →
       Dashboard.App.isEditing (Dashboard.App.editingReview app) review = false).
Proof.
  split; [|split].
  - intros e st app.
    unfold Minimal.ReviewEntry.dispatch, Minimal.ReviewEntry.handleSave,
      Minimal.ReviewEntry.handleDelete.
    destruct e; simpl; dispatch_cases; try done;
      intros _; eapply bool_decide_eq_true_1; eassumption.
  - intros e st app eid attrs.
    unfold Dashboard.ReviewItem.dispatch, Dashboard.ReviewItem.handleSave,
      Dashboard.ReviewItem.handleDelete.
    destruct e; simpl; dispatch_cases; try done;
      try (by intros ?%elem_of_nil);
      by intros [=]%list_elem_of_singleton.
  - intros e st app eid.
    unfold Dashboard.ReviewItem.dispatch, Dashboard.ReviewItem.handleSave,
      Dashboard.ReviewItem.handleDelete.
    destruct e; simpl; dispatch_cases; try done;
      try (by intros ?%elem_of_nil);
      by intros [=]%list_elem_of_singleton.
Qed.

(** X14. After an event that issues a delete, the controller does not hold
    the deleted review: the delete is about the review of the element, and
    afterwards that review is not in edit mode, in either layout. *)
Theorem deleted_review_is_not_left_in_edit_mode (review : Review.t) :
  (∀ e st app eid,
     Tx.delete eid ∈ (Minimal.ReviewEntry.dispatch review e st app).2 →
     eid = Review.id review
     ∧ Minimal.App.editingId (Minimal.ReviewEntry.dispatch review e st app).1.2
       = None)
  ∧ (∀ e st app eid,
       Tx.delete eid ∈ (Dashboard.ReviewItem.dispatch review e st app).2 →
       eid = Review.id review
       ∧ Dashboard.App.isEditing
           (Dashboard.App.editingReview
              (Dashboard.ReviewItem.dispatch review e st app).1.2) review
         = false).
Proof.
  split.
  - intros e st app eid.
    unfold Minimal.ReviewEntry.dispatch, Minimal.ReviewEntry.handleSave,
      Minimal.ReviewEntry.handleDelete.
    destruct e; simpl; dispatch_cases;
      try (by intros ?%elem_of_nil);
      by intros [=]%list_elem_of_singleton.
  - intros e st app eid.
    unfold Dashboard.ReviewItem.dispatch, Dashboard.ReviewItem.handleSave,
      Dashboard.ReviewItem.handleDelete.
    destruct (Dashboard.App.isEditing (Dashboard.App.editingReview app) review)
      eqn:Hed;
      destruct e; simpl; dispatch_cases;
      try (by intros ?%elem_of_nil);
      intros [=]%list_elem_of_singleton; by rewrite ?Hed.
Qed.

(** X15. While the element of a review stays mounted, the events on it
    change its edit buffer by typing only, and typing is possible in edit
    mode only: each of the element's events leaves the buffer as it was,
    except a change of the title or content input while the review is being
    edited, which stores the typed value. Saving, cancelling, deleting and
    begin-edit never touch the buffer, in either layout. (A remount of the
    element, which initialises the buffer from the review again, is not one
    of these events.) *)
Theorem buffer_changes_by_typing_only (review : Review.t) :
  (∀ e st app,
     let st' := (Minimal.ReviewEntry.dispatch review e st app).1.1 in
     st' = st
     ∨ (Minimal.App.editingId app = Some (Review.id review)
        ∧ ((∃ v, e = Minimal.ReviewEntry.ChangeTitle v
                 ∧ st' = Minimal.ReviewEntry.mk v
                           (Minimal.ReviewEntry.editContent st))
           ∨ (∃ v, e = Minimal.ReviewEntry.ChangeContent v
                   ∧ st' = Minimal.ReviewEntry.mk
                             (Minimal.ReviewEntry.editTitle st) v))))
  ∧ (∀ e st app,
       let st' := (Dashboard.ReviewItem.dispatch review e st app).1.1 in
       st' = st
       ∨ (Dashboard.App.isEditing (Dashboard.App.editingReview app) review
          = true
          ∧ ((∃ v, e = Dashboard.ReviewItem.ChangeTitle v
                   ∧ st' = Dashboard.ReviewItem.mk v
                             (Dashboard.ReviewItem.editContent st))
             ∨ (∃ v, e = Dashboard.ReviewItem.ChangeContent v
                     ∧ st' = Dashboard.ReviewItem.mk
                               (Dashboard.ReviewItem.editTitle st) v)))).
Proof.
  split.
  - intros e st app.
    unfold Minimal.ReviewEntry.dispatch, Minimal.ReviewEntry.handleSave,
      Minimal.ReviewEntry.handleDelete.
    destruct e; simpl; dispatch_cases; auto; right;
      (split; [eapply bool_decide_eq_true_1; eassumption|]); eauto.
  - intros e st app.
    unfold Dashboard.ReviewItem.dispatch, Dashboard.ReviewItem.handleSave,
      Dashboard.ReviewItem.handleDelete.
    destruct e; simpl; dispatch_cases; auto; right; (split; [done|]); eauto.
Qed.

(** ** Sessions of the write view *)

Lemma dispatch_section_known newId now e st app :
  section_known st →
  section_known (Minimal.WriteView.dispatch newId now e st app).1.1.
Proof.
  intros Hst. unfold Minimal.WriteView.dispatch.
  destruct (Minimal.WriteView.offered st e); [|done].
  destruct e; simpl; try done.
  - intros _. by eexists.
  - unfold Minimal.WriteView.handleSubmit.
    by destruct (_ || _).
Qed.

Lemma handleSubmit_writes newId now st app :
  Forall (fun op => clean_op op ∧ ∃ i n, creates_listed i n op)
    (Minimal.WriteView.handleSubmit newId now st app).2.
Proof.
  destruct st as [step sel t c]. unfold Minimal.WriteView.handleSubmit.
  cbn [Minimal.WriteView.selectedSection Minimal.WriteView.title
       Minimal.WriteView.content].
  destruct sel as [s|]; [|by constructor].
  rewrite (not_section_Some s), orb_false_l.
  destruct (guard_cases t c) as [[-> _]|(-> & Ht & Hc)]; [by constructor|].
  constructor; [|done]. split.
  - split; by apply clean_trim.
  - exists newId, now. by exists (trim t), (trim c), s.
Qed.

Lemma dispatch_writes newId now e st app :
  Forall (fun op => clean_op op ∧ ∃ i n, creates_listed i n op)
    (Minimal.WriteView.dispatch newId now e st app).2.
Proof.
  unfold Minimal.WriteView.dispatch.
  destruct (Minimal.WriteView.offered st e); [|by constructor].
  destruct e; simpl; try by constructor.
  apply handleSubmit_writes.
Qed.

Lemma run_invariant events st app :
  section_known st →
  section_known (Minimal.WriteView.run events st app).1.1
  ∧ Forall (fun op => clean_op op ∧ ∃ i n, creates_listed i n op)
      (Minimal.WriteView.run events st app).2.
Proof.
  revert st app. induction events as [|[[e newId] now] events IH];
    intros st app Hst; simpl; [by split|].
  pose proof (dispatch_section_known newId now e st app Hst) as Hst1.
  pose proof (dispatch_writes newId now e st app) as Hops1.
  destruct (Minimal.WriteView.dispatch newId now e st app)
    as [[st1 app1] ops1]. simpl in Hst1, Hops1.
  destruct (IH st1 app1 Hst1) as [Hst2 Hops2].
  destruct (Minimal.WriteView.run events st1 app1) as [[st2 app2] ops2].
  simpl in *. split; [done|]. by apply Forall_app.
Qed.

(** X16. Whatever the user does in the write view, starting from its
    initial state: the view always renders (the details form is never
    reached without a selected section, so the page's non-null assertion on
    it holds), and every write of the session creates a complete review
    with a clean title and content in one of the three sections. *)
Theorem write_view_session_is_safe
    (events : list (Minimal.WriteView.Event * jsstring * Z))
    (app : Minimal.App.State) :
  let r := Minimal.WriteView.run events Minimal.WriteView.initial app in
  (∃ out, Minimal.WriteView.render r.1.1 = Normal out)
  ∧ Forall (fun op => clean_op op ∧ ∃ newId now, creates_listed newId now op)
      r.2.
Proof.
  destruct (run_invariant events Minimal.WriteView.initial app) as [Hst Hops];
    [done|].
  simpl. split; [|done].
  unfold Minimal.WriteView.render.
  destruct (Minimal.WriteView.step _) eqn:Hstep; [by eexists|].
  destruct (Hst Hstep) as [s ->]. by eexists.
Qed.

(** X17. A draft follows the section chosen last: with a non-blank title
    and content typed under one section, going Back, choosing another
    section and saving issues one create under the section chosen last,
    with the draft typed before, and resets the view. *)
Theorem draft_follows_the_section_chosen_last
    (newId : jsstring) (now : Z) (s s' : SectionId) (t c : jsstring)
    (app : Minimal.App.State) :
  ¬ blank t → ¬ blank c →
  Minimal.WriteView.run
    [ (Minimal.WriteView.ClickBack, newId, now);
      (Minimal.WriteView.ClickSection s', newId, now);
      (Minimal.WriteView.ClickSave, newId, now) ]
    (Minimal.WriteView.mk Minimal.WriteView.content_step (Some s) t c) app
  = (Minimal.WriteView.initial,
     Minimal.App.mk Minimal.App.read (Minimal.App.editingId app),
     [create_op newId now s' t c]).
Proof.
  intros Ht Hc.
  assert (not_string (trim t) || not_string (trim c) = false) as Hv
    by (apply guard_not_blank; tauto).
  unfold Minimal.WriteView.run, Minimal.WriteView.dispatch,
    Minimal.WriteView.offered, Minimal.WriteView.handleSubmit.
  cbn [Minimal.WriteView.step Minimal.WriteView.back
       Minimal.WriteView.chooseSection Minimal.WriteView.setStep
       Minimal.WriteView.setSelectedSection
       Minimal.WriteView.selectedSection Minimal.WriteView.title
       Minimal.WriteView.content].
  by rewrite (not_section_Some s'), orb_false_l, Hv.
Qed.

Lemma draft_follows_the_section_chosen_last_witness :
  ¬ blank (js "Week 1") ∧ ¬ blank (js "Felt strong")
  ∧ Minimal.WriteView.run
      [ (Minimal.WriteView.ClickBack, js "r6", 600%Z);
        (Minimal.WriteView.ClickSection GrowingInstant, js "r6", 600%Z);
        (Minimal.WriteView.ClickSave, js "r6", 600%Z) ]
      (Minimal.WriteView.mk Minimal.WriteView.content_step (Some BestShape)
         (js "Week 1") (js "Felt strong"))
      Minimal.App.initial
    = (Minimal.WriteView.initial,
       Minimal.App.mk Minimal.App.read None,
       [create_op (js "r6") 600 GrowingInstant (js "Week 1") (js "Felt strong")]).
Proof.
  assert (¬ blank (js "Week 1")) as Ht.
  { intros H. apply trim_nil in H. by vm_compute in H. }
  assert (¬ blank (js "Felt strong")) as Hc.
  { intros H. apply trim_nil in H. by vm_compute in H. }
  split; [exact Ht|]. split; [exact Hc|].
  exact (draft_follows_the_section_chosen_last (js "r6") 600 BestShape
           GrowingInstant (js "Week 1") (js "Felt strong")
           Minimal.App.initial Ht Hc).
Defined.
